(** * Verification of the JWT authentication and role middleware

    Shallow embedding of [src/middleware/auth.js]: the Express middlewares
    [authenticateToken], [requireRole] and [requireAuthenticated], the
    key callback [getKey] and the verification options [jwtOptions].

    The two npm packages the file calls, [jsonwebtoken] and [jwks-rsa], are
    not part of the repository.  [jwt.verify] is taken as a parameter (a
    [JwtLibrary]); the key cache behind [client.getSigningKey] is modelled
    from the specification (module [KeyResolver]).  The engine's
    [String.prototype.toLowerCase] is a parameter too (a [Host]), known
    only by what it does to ASCII strings. *)

From Stdlib Require Import String Ascii List ZArith Bool Arith Lia Sorted.
From Stdlib Require Import DecimalString.
Import ListNotations.
Open Scope string_scope.

Set Warnings "-register-all".

(** ** JavaScript primitives used by the middleware *)

Module Js.

(** Strings are byte strings: the UTF-8 form of the JavaScript string.
    Equality, the empty string and the space character are the same on
    both sides. *)

(** The ASCII letters A-Z mapped to a-z, every other byte kept. *)
Definition lower_ascii (c : ascii) : ascii :=
  let n := nat_of_ascii c in
  if (65 <=? n)%nat && (n <=? 90)%nat then ascii_of_nat (n + 32) else c.

(** What lower-casing does to a string of ASCII characters. *)
Fixpoint asciiLower (s : string) : string :=
  match s with
  | EmptyString => EmptyString
  | String c s' => String (lower_ascii c) (asciiLower s')
  end.

(** The string has ASCII characters only. *)
Fixpoint ascii_only (s : string) : bool :=
  match s with
  | EmptyString => true
  | String c s' => (nat_of_ascii c <? 128)%nat && ascii_only s'
  end.

(** [s.split(sep)] for a one-character separator: the pieces between the
    separators, empty pieces included. *)
Fixpoint split (sep : ascii) (s : string) : list string :=
  match s with
  | EmptyString => [EmptyString]
  | String c s' =>
      if Ascii.eqb c sep then EmptyString :: split sep s'
      else match split sep s' with
           | [] => [String c EmptyString]
           | w :: ws => String c w :: ws
           end
  end.

(** Truthiness of a value that is a string or [undefined]. *)
Definition truthy (v : option string) : bool :=
  match v with
  | None => false
  | Some EmptyString => false
  | Some _ => true
  end.

(** [a || d] on such values, with a string default. *)
Definition or_default (v : option string) (d : string) : string :=
  match v with
  | Some s => if truthy v then s else d
  | None => d
  end.

(** [Array.prototype.includes] on an array of strings. *)
Definition includes (l : list string) (x : string) : bool :=
  existsb (String.eqb x) l.

(** [Array.prototype.some]. *)
Definition some {A} (f : A -> bool) (l : list A) : bool := existsb f l.

(** [Array.prototype.join] with the separator [sep]. *)
Fixpoint join (sep : string) (l : list string) : string :=
  match l with
  | [] => ""
  | [x] => x
  | x :: xs => x ++ sep ++ join sep xs
  end.

(** A string or [undefined] inside a template literal. *)
Definition interpolate (v : option string) : string :=
  match v with Some s => s | None => "undefined" end.

End Js.

(** ** The host's [String.prototype.toLowerCase]

    The method is the JavaScript engine's, with Unicode's case tables
    behind it, and is not part of the repository.  It is taken as it
    comes: any function on strings that lower-cases the ASCII letters of
    an ASCII string and leaves its other characters alone.  Nothing is
    assumed of what it does to other strings. *)
Class Host : Type := {
  toLowerCase : string -> string;
  toLowerCase_ascii :
    forall s, Js.ascii_only s = true -> toLowerCase s = Js.asciiLower s
}.

(** ** Values sent to the client and written to the console *)

Inductive Json : Type :=
| JUndefined
| JStr (s : string)
| JArr (l : list Json)
| JObj (fields : list (string * Json)).

Definition jstrings (l : list string) : Json := JArr (map JStr l).

Definition jopt (v : option string) : Json :=
  match v with Some s => JStr s | None => JUndefined end.

(** The field [k] of an object. *)
Fixpoint assoc (k : string) (fields : list (string * Json)) : option Json :=
  match fields with
  | [] => None
  | (k', v) :: rest => if String.eqb k k' then Some v else assoc k rest
  end.

Definition field (k : string) (j : Json) : option Json :=
  match j with JObj fs => assoc k fs | _ => None end.

(** An error object; the middleware reads its [message] only. *)
Record JsError : Type := { message : string }.

(** ** Tokens and identities *)

Record JwtHeader : Type := { alg : string; kid : string }.

Record RealmAccess : Type := { ra_roles : option (list string) }.

(** The payload [jwt.verify] hands to its callback. *)
Record Decoded : Type := {
  sub : option string;
  preferred_username : option string;
  email : option string;
  realm_access : option RealmAccess;
  iss : string;
  iat : Z;
  exp : Z
}.

Record Jwt : Type := {
  header : JwtHeader;
  payload : Decoded;
  signature : string
}.

(** [req.user]. *)
Record Identity : Type := {
  id : option string;
  username : option string;
  u_email : option string;
  roles : list string
}.

Record SigningKey : Type := { keyId : string; publicKey : string }.

(** The options object handed to [jwt.verify]. *)
Record JwtOptions : Type := { issuer : string; algorithms : list string }.

(** The environment variables the module reads when it is loaded. *)
Record ProcessEnv : Type := {
  KEYCLOAK_JWKS_URI : option string;
  KEYCLOAK_ISSUER : option string
}.

(** ** The key resolver behind [client.getSigningKey] *)

Module KeyResolver.

Record Config : Type := {
  jwksUri : string;
  cacheMaxEntries : nat;
  cacheMaxAge : Z
}.

(** The configuration object of [jwksClient({...})]; [cacheMaxAge] is in
    milliseconds. *)
Definition clientConfig (env : ProcessEnv) : Config :=
  {| jwksUri := Js.or_default (KEYCLOAK_JWKS_URI env)
       "https://patientsystem-keycloak.app.cloud.cbh.kth.se/realms/patientsystem/protocol/openid-connect/certs";
     cacheMaxEntries := 5;
     cacheMaxAge := 600000 |}.

Record Entry : Type := { e_key : SigningKey; fetchedAt : Z }.

(** Modelled from the spec: the KeyCache of the jwks-rsa client, which is
    not in the repository.  A mapping from key identifier to
    (SigningKey, fetchedAt), kept in insertion order, oldest entry first. *)
Definition KeyCache : Type := list Entry.

(** What the key-set endpoint answers when it is asked. *)
Inductive JwksResponse : Type :=
| Unreachable
| Malformed
| KeySet (keys : list SigningKey).

Inductive Resolution : Type :=
| Resolved (k : SigningKey)
| KeyResolutionError (e : JsError).

(** The entry binds the key identifier [kid]. *)
Definition bound (kid : string) (e : Entry) : bool :=
  String.eqb (keyId (e_key e)) kid.

(** Modelled from the spec: the cached entry for [kid], if there is one. *)
Definition lookup (kid : string) (c : KeyCache) : option Entry :=
  find (bound kid) c.

(** The cache without its binding of [kid]. *)
Definition unbind (kid : string) (c : KeyCache) : KeyCache :=
  filter (fun e => negb (bound kid e)) c.

(** Modelled from the spec: an entry older than the configured max age is
    stale. *)
Definition stale (cfg : Config) (now : Z) (e : Entry) : bool :=
  (cacheMaxAge cfg <? now - fetchedAt e)%Z.

(** Modelled from the spec: eviction of the oldest entry when inserting
    would exceed the configured maximum entry count. *)
Definition evict (cfg : Config) (c : KeyCache) : KeyCache :=
  if (cacheMaxEntries cfg <=? length c)%nat then tl c else c.

(** Modelled from the spec: storing a fetched key with the current
    timestamp.  The cache is a mapping, so a binding of the same key
    identifier is replaced. *)
Definition insert (cfg : Config) (e : Entry) (c : KeyCache) : KeyCache :=
  (evict cfg (unbind (keyId (e_key e)) c) ++ [e])%list.

(** Modelled from the spec: the entry of the fetched key set that matches
    [kid]. *)
Definition find_key (kid : string) (ks : list SigningKey) : option SigningKey :=
  find (fun k => String.eqb (keyId k) kid) ks.

(** Modelled from the spec: the fetch of section 4.1, with the cache
    insertion on success.  The boolean tells that the network was used. *)
Definition fetch (cfg : Config) (now : Z) (remote : JwksResponse)
    (kid : string) (c : KeyCache) : Resolution * KeyCache * bool :=
  match remote with
  | Unreachable =>
      (KeyResolutionError {| message := "key set endpoint unreachable" |}, c, true)
  | Malformed =>
      (KeyResolutionError {| message := "malformed key set" |}, c, true)
  | KeySet ks =>
      match find_key kid ks with
      | None =>
          (KeyResolutionError {| message := "no key matching kid" |}, c, true)
      | Some k =>
          (Resolved k, insert cfg {| e_key := k; fetchedAt := now |} c, true)
      end
  end.

(** Modelled from the spec: [resolveKey] of section 4.1.  A non-stale
    cached entry is returned without a network call; otherwise the key set
    is fetched. *)
Definition resolveKey (cfg : Config) (now : Z) (remote : JwksResponse)
    (kid : string) (c : KeyCache) : Resolution * KeyCache * bool :=
  match lookup kid c with
  | Some e =>
      if stale cfg now e then fetch cfg now remote kid c
      else (Resolved (e_key e), c, false)
  | None => fetch cfg now remote kid c
  end.

(** One lookup as the world presents it: the time, the answer the endpoint
    would give, and the key identifier asked for. *)
Record Lookup : Type := {
  l_now : Z;
  l_remote : JwksResponse;
  l_kid : string
}.

(** The cache after a sequence of lookups. *)
Definition run (cfg : Config) (ls : list Lookup) (c : KeyCache) : KeyCache :=
  fold_left
    (fun c l => snd (fst (resolveKey cfg (l_now l) (l_remote l) (l_kid l) c)))
    ls c.

(** The lookups come in the order of the clock, none before [t]. *)
Fixpoint chronological (t : Z) (ls : list Lookup) : Prop :=
  match ls with
  | [] => True
  | l :: rest => (t <= l_now l)%Z /\ chronological (l_now l) rest
  end.

(** The entries are in the order of their timestamps, oldest first. *)
Definition ordered (c : KeyCache) : Prop :=
  StronglySorted (fun a b => (fetchedAt a <= fetchedAt b)%Z) c.

(** The key identifiers bound in the cache. *)
Definition keys (c : KeyCache) : list string :=
  map (fun e => keyId (e_key e)) c.

(** The cache is a mapping: no key identifier is bound twice. *)
Definition distinct (c : KeyCache) : Prop := NoDup (keys c).

(** No entry was fetched after [t]. *)
Definition upto (t : Z) (c : KeyCache) : Prop :=
  Forall (fun e => (fetchedAt e <= t)%Z) c.

End KeyResolver.

(** ** Process-wide state *)

(** [console.log] writes to the first stream, [console.error] to the
    second. *)
Inductive Stream : Type := Stdout | Stderr.

(** What outlives a request: the clock (milliseconds, as [Date.now()]),
    the answer of the key-set endpoint, the client's key cache, the number
    of network fetches made so far, and the console. *)
Record Sys : Type := {
  now : Z;
  endpoint : KeyResolver.JwksResponse;
  keyCache : KeyResolver.KeyCache;
  fetches : nat;
  console : list (Stream * list Json)
}.

Definition write_console (to : Stream) (line : list Json) (s : Sys) : Sys :=
  {| now := now s; endpoint := endpoint s; keyCache := keyCache s;
     fetches := fetches s; console := (console s ++ [(to, line)])%list |}.

(** [client.getSigningKey(kid, cb)]: the value handed to [cb]. *)
Definition getSigningKey (env : ProcessEnv) (kid : string) (s : Sys)
    : (JsError + SigningKey) * Sys :=
  let '(r, c, fetched) :=
    KeyResolver.resolveKey (KeyResolver.clientConfig env)
      (now s) (endpoint s) kid (keyCache s) in
  let s' := {| now := now s; endpoint := endpoint s; keyCache := c;
               fetches := if fetched then S (fetches s) else fetches s;
               console := console s |} in
  match r with
  | KeyResolver.Resolved k => (inr k, s')
  | KeyResolver.KeyResolutionError e => (inl e, s')
  end.

Definition getPublicKey (k : SigningKey) : string := publicKey k.

(** ** The verification library *)

(** The key callback [jwt.verify] is given: from the token's header to an
    error or a public key. *)
Definition GetKey : Type := JwtHeader -> Sys -> (JsError + string) * Sys.

(** The part of the [jsonwebtoken] package the middleware uses.
    [jwt_verify token getKey options] yields what the package hands to its
    callback: an error or the decoded payload.  [jwt_decode] reads a token
    without verifying it; [clockTolerance] is the package's clock-skew
    tolerance, in seconds. *)
Record JwtLibrary : Type := {
  jwt_decode : string -> option Jwt;
  clockTolerance : Z;
  jwt_verify : string -> GetKey -> JwtOptions -> Sys -> (JsError + Decoded) * Sys
}.

(** The clock as a JWT NumericDate (seconds). *)
Definition clockTimestamp (s : Sys) : Z := (now s / 1000)%Z.

(** ** Requests, responses and the middleware monad *)

Record Request : Type := {
  authorization : option string;
  user : option Identity
}.

Record Response : Type := {
  statusCode : nat;
  sent : option Json
}.

(** The state a middleware runs in: the process, the request and response
    objects, how often [next()] was called and the calls made to
    [jwt.verify]. *)
Record St : Type := {
  st_sys : Sys;
  st_req : Request;
  st_res : Response;
  st_next : nat;
  st_verify : list (string * JwtOptions)
}.

Definition M (A : Type) : Type := St -> A * St.

Definition ret {A} (a : A) : M A := fun st => (a, st).

Definition bind {A B} (m : M A) (k : A -> M B) : M B :=
  fun st => let '(a, st') := m st in k a st'.

Notation "x <- c1 ;; c2" := (bind c1 (fun x => c2))
  (at level 61, c1 at next level, right associativity).
Notation "c1 ;; c2" := (bind c1 (fun _ => c2))
  (at level 61, right associativity).

Definition get_req : M Request := fun st => (st_req st, st).

Definition console_to (to : Stream) (line : list Json) : M unit := fun st =>
  (tt, {| st_sys := write_console to line (st_sys st); st_req := st_req st;
          st_res := st_res st; st_next := st_next st;
          st_verify := st_verify st |}).

Definition console_log : list Json -> M unit := console_to Stdout.

Definition console_error : list Json -> M unit := console_to Stderr.

(** The status codes Node accepts when the head of a response is
    written: 100 to 999. *)
Definition validStatus (n : nat) : bool := (100 <=? n)%nat && (n <=? 999)%nat.

(** [res.status(n)]: the code is stored on the response. *)
Definition res_status (n : nat) : M unit := fun st =>
  (tt, {| st_sys := st_sys st; st_req := st_req st;
          st_res := {| statusCode := n; sent := sent (st_res st) |};
          st_next := st_next st; st_verify := st_verify st |}).

(** [res.json(body)]: the body is sent with the stored status.  A stored
    status outside 100..999 is refused when the head is written (the call
    throws a RangeError) and nothing is sent. *)
Definition res_json (body : Json) : M unit := fun st =>
  if validStatus (statusCode (st_res st)) then
    (tt, {| st_sys := st_sys st; st_req := st_req st;
            st_res := {| statusCode := statusCode (st_res st);
                         sent := Some body |};
            st_next := st_next st; st_verify := st_verify st |})
  else (tt, st).

(** [req.user = u] *)
Definition set_user (u : Identity) : M unit := fun st =>
  (tt, {| st_sys := st_sys st;
          st_req := {| authorization := authorization (st_req st); user := Some u |};
          st_res := st_res st; st_next := st_next st;
          st_verify := st_verify st |}).

(** [next()] *)
Definition next : M unit := fun st =>
  (tt, {| st_sys := st_sys st; st_req := st_req st; st_res := st_res st;
          st_next := S (st_next st); st_verify := st_verify st |}).

(** [jwt.verify(token, getKey, options, cb)]: the call is recorded and the
    library runs on the process state. *)
Definition verify (L : JwtLibrary) (token : string) (gk : GetKey)
    (opts : JwtOptions) : M (JsError + Decoded) := fun st =>
  let '(r, s') := jwt_verify L token gk opts (st_sys st) in
  (r, {| st_sys := s'; st_req := st_req st; st_res := st_res st;
         st_next := st_next st;
         st_verify := (st_verify st ++ [(token, opts)])%list |}).

(** ** src/middleware/auth.js *)

Section Auth.

Variable L : JwtLibrary.
Variable env : ProcessEnv.

(** [getKey(header, callback)]: the arguments [callback] receives. *)
Definition getKey (header : JwtHeader) (s : Sys) : (JsError + string) * Sys :=
  match getSigningKey env (kid header) s with
  | (inl err, s') =>
      (inl err,
       write_console Stderr
         [JStr "Error getting signing key:"; JStr (message err)] s')
  | (inr key, s') => (inr (getPublicKey key), s')
  end.

Definition jwtOptions : JwtOptions :=
  {| issuer := Js.or_default (KEYCLOAK_ISSUER env)
       "https://patientsystem-keycloak.app.cloud.cbh.kth.se/realms/patientsystem";
     algorithms := ["RS256"] |}.

(** [authHeader && authHeader.split(' ')[1]] *)
Definition bearerToken (authHeader : option string) : option string :=
  match authHeader with
  | Some h => if Js.truthy authHeader then nth_error (Js.split " " h) 1
              else authHeader
  | None => None
  end.

Definition noToken : M unit :=
  console_log [JStr "No token provided"] ;;
  res_status 401 ;;
  res_json (JObj [("error", JStr "Access denied. No token provided.")]).

(** The identity built from the verified payload. *)
Definition identityOf (decoded : Decoded) : Identity :=
  {| id := sub decoded;
     username := preferred_username decoded;
     u_email := email decoded;
     roles := match realm_access decoded with
              | Some ra => match ra_roles ra with
                           | Some rs => rs
                           | None => []
                           end
              | None => []
              end |}.

(** The callback of [jwt.verify]. *)
Definition verified (r : JsError + Decoded) : M unit :=
  match r with
  | inl err =>
      console_error [JStr "Token verification failed:"; JStr (message err)] ;;
      res_status 403 ;;
      res_json (JObj [("error", JStr "Invalid or expired token.")])
  | inr decoded =>
      set_user (identityOf decoded) ;;
      console_log [JStr "Authenticated user:";
                   jopt (username (identityOf decoded));
                   JStr "Roles:";
                   jstrings (roles (identityOf decoded))] ;;
      next
  end.

Definition authenticateToken : M unit :=
  req <- get_req ;;
  let authHeader := authorization req in
  let token := bearerToken authHeader in
  match token with
  | Some t =>
      if negb (Js.truthy token) then noToken
      else r <- verify L t getKey jwtOptions ;; verified r
  | None => noToken
  end.

Definition requireRole {host : Host} (allowedRoles : list string) : M unit :=
  req <- get_req ;;
  match user req with
  | None =>
      res_status 401 ;;
      res_json (JObj [("error", JStr "Not authenticated")])
  | Some u =>
      let userRoles := map toLowerCase (roles u) in
      let hasRole :=
        Js.some (fun role => Js.includes userRoles (toLowerCase role))
                allowedRoles in
      if negb hasRole then
        console_log
          [JStr ("Access denied. User " ++ Js.interpolate (username u)
                 ++ " has roles [" ++ Js.join "," userRoles
                 ++ "], needs one of [" ++ Js.join "," allowedRoles ++ "]")] ;;
        res_status 403 ;;
        res_json (JObj [("error", JStr "Access denied. Insufficient permissions.");
                        ("required", jstrings allowedRoles);
                        ("userRoles", jstrings userRoles)])
      else next
  end.

Definition requireDoctor {host : Host} : M unit := requireRole ["doctor"].

Definition requireDoctorOrStaff {host : Host} : M unit :=
  requireRole ["doctor"; "staff"].

Definition requireAuthenticated : M unit :=
  req <- get_req ;;
  match user req with
  | None =>
      res_status 401 ;;
      res_json (JObj [("error", JStr "Not authenticated")])
  | Some _ => next
  end.

End Auth.

(** A middleware started on a fresh response object. *)
Definition handle (m : M unit) (s : Sys) (req : Request) : St :=
  snd (m {| st_sys := s; st_req := req;
            st_res := {| statusCode := 200; sent := None |};
            st_next := 0; st_verify := [] |}).

(** The response a middleware ended the request with. *)
Definition responded (st : St) (code : nat) (body : Json) : Prop :=
  st_res st = {| statusCode := code; sent := Some body |} /\ st_next st = 0%nat.

(** The request was passed on to the next handler and nothing was sent. *)
Definition passed_on (st : St) : Prop :=
  st_next st = 1%nat /\ sent (st_res st) = None.

(** ** What the specification says of the verification library *)

Section Contract.

Variable L : JwtLibrary.

Definition fails (r : (JsError + Decoded) * Sys) : Prop :=
  exists e s', r = (inl e, s').

(** Modelled from the spec: step 2 of the Token Authenticator, missing from
    the repository with the jsonwebtoken package.  An error of the key
    callback is reported as a verification error. *)
Definition wraps_key_errors : Prop :=
  forall tok j (gk : GetKey) opts s e s1,
    jwt_decode L tok = Some j ->
    gk (header j) s = (inl e, s1) ->
    fails (jwt_verify L tok gk opts s).

(** Modelled from the spec: step 3, a token declaring an algorithm other
    than the ones the options fix is rejected. *)
Definition rejects_other_algorithms : Prop :=
  forall tok j gk opts s,
    jwt_decode L tok = Some j ->
    ~ In (alg (header j)) (algorithms opts) ->
    fails (jwt_verify L tok gk opts s).

(** Modelled from the spec: step 4, the issuer equals the expected one. *)
Definition validates_issuer : Prop :=
  forall tok j gk opts s,
    jwt_decode L tok = Some j ->
    iss (payload j) <> issuer opts ->
    fails (jwt_verify L tok gk opts s).

(** The current time lies in [issuedAt, expiresAt], up to the library's
    clock-skew tolerance. *)
Definition in_time_window (j : Jwt) (s : Sys) : Prop :=
  (iat (payload j) - clockTolerance L <= clockTimestamp s
   /\ clockTimestamp s <= exp (payload j) + clockTolerance L)%Z.

(** Modelled from the spec: step 4, the current time is not after
    expiresAt. *)
Definition validates_expiry : Prop :=
  forall tok j gk opts s,
    jwt_decode L tok = Some j ->
    (exp (payload j) + clockTolerance L < clockTimestamp s)%Z ->
    fails (jwt_verify L tok gk opts s).

(** Modelled from the spec: step 4, the current time is not before
    issuedAt. *)
Definition validates_issued_at : Prop :=
  forall tok j gk opts s,
    jwt_decode L tok = Some j ->
    (clockTimestamp s < iat (payload j) - clockTolerance L)%Z ->
    fails (jwt_verify L tok gk opts s).

End Contract.

(** ** A verification library for closed examples *)

Module TestDouble.

Fixpoint decode (issued : list (string * Jwt)) (tok : string) : option Jwt :=
  match issued with
  | [] => None
  | (t, j) :: rest => if String.eqb tok t then Some j else decode rest tok
  end.

Definition reject (msg : string) (s : Sys) : (JsError + Decoded) * Sys :=
  (inl {| message := msg |}, s).

(** Modelled from the spec: steps 2 to 4 of the Token Authenticator over a
    fixed table of issued tokens, standing for the jsonwebtoken package.
    A signature is valid for a key when it names that key. *)
Definition verify (issued : list (string * Jwt)) (tolerance : Z)
    (tok : string) (gk : GetKey) (opts : JwtOptions) (s : Sys)
    : (JsError + Decoded) * Sys :=
  match decode issued tok with
  | None => reject "jwt malformed" s
  | Some j =>
      match gk (header j) s with
      | (inl e, s') =>
          reject ("error in secret or public key callback: " ++ message e) s'
      | (inr key, s') =>
          if negb (Js.includes (algorithms opts) (alg (header j)))
          then reject "invalid algorithm" s'
          else if negb (String.eqb (signature j) key)
          then reject "invalid signature" s'
          else if negb (String.eqb (iss (payload j)) (issuer opts))
          then reject "jwt issuer invalid" s'
          else if (clockTimestamp s <? iat (payload j) - tolerance)%Z
          then reject "jwt not active" s'
          else if (exp (payload j) + tolerance <? clockTimestamp s)%Z
          then reject "jwt expired" s'
          else (inr (payload j), s')
      end
  end.

Definition library (issued : list (string * Jwt)) (tolerance : Z) : JwtLibrary :=
  {| jwt_decode := decode issued;
     clockTolerance := tolerance;
     jwt_verify := verify issued tolerance |}.

(** A key set with one key, and tokens issued against it. *)
Definition key1 : SigningKey := {| keyId := "k1"; publicKey := "pk1" |}.

Definition realm : string :=
  "https://patientsystem-keycloak.app.cloud.cbh.kth.se/realms/patientsystem".

Definition claims (issuer : string) (rs : option (list string))
    (issued expires : Z) : Decoded :=
  {| sub := Some "u-1"; preferred_username := Some "alice";
     email := Some "alice@example.org";
     realm_access := Some {| ra_roles := rs |};
     iss := issuer; iat := issued; exp := expires |}.

Definition token (a : string) (p : Decoded) : Jwt :=
  {| header := {| alg := a; kid := "k1" |}; payload := p; signature := "pk1" |}.

Definition good : Jwt := token "RS256" (claims realm (Some ["Doctor"]) 1000 2000).

Definition hs256 : Jwt := token "HS256" (claims realm (Some ["doctor"]) 1000 2000).

Definition foreign : Jwt :=
  token "RS256" (claims "https://elsewhere.example" (Some ["doctor"]) 1000 2000).

Definition expired : Jwt := token "RS256" (claims realm (Some ["doctor"]) 100 200).

Definition noroles : Jwt := token "RS256" (claims realm None 1000 2000).

Definition unknownkey : Jwt :=
  {| header := {| alg := "RS256"; kid := "k9" |};
     payload := claims realm (Some ["doctor"]) 1000 2000;
     signature := "pk9" |}.

Definition issued : list (string * Jwt) :=
  [ ("good", good); ("hs256", hs256); ("foreign", foreign);
    ("expired", expired); ("noroles", noroles); ("unknownkey", unknownkey) ].

Definition lib : JwtLibrary := library issued 0.

Definition env0 : ProcessEnv :=
  {| KEYCLOAK_JWKS_URI := None; KEYCLOAK_ISSUER := None |}.

(** The process at second 1500, nothing cached yet. *)
Definition sys0 : Sys :=
  {| now := 1500000; endpoint := KeyResolver.KeySet [key1]; keyCache := [];
     fetches := 0; console := [] |}.

Definition request (h : option string) : Request :=
  {| authorization := h; user := None |}.

(** Keys and cache entries by name, and a cache that is full under the
    client's configuration. *)
Definition key (n : string) : SigningKey :=
  {| keyId := n; publicKey := "pk-" ++ n |}.

Definition entry (n : string) (t : Z) : KeyResolver.Entry :=
  {| KeyResolver.e_key := key n; KeyResolver.fetchedAt := t |}.

Definition fullCache : KeyResolver.KeyCache :=
  [entry "a" 10; entry "b" 20; entry "c" 30; entry "d" 40; entry "e" 50].

Definition ask (t : Z) (n : string) : KeyResolver.Lookup :=
  {| KeyResolver.l_now := t;
     KeyResolver.l_remote := KeyResolver.KeySet [key n];
     KeyResolver.l_kid := n |}.

Definition cfg0 : KeyResolver.Config := KeyResolver.clientConfig env0.

(** [authenticateToken] on a request with the header [h]. *)
Definition auth (h : option string) : St :=
  handle (authenticateToken lib env0) sys0 (request h).

(** A request that comes with an identity whose roles are [rs]. *)
Definition as_user (rs : list string) : Request :=
  {| authorization := Some "Bearer good";
     user := Some {| id := Some "u-1"; username := Some "alice";
                     u_email := Some "alice@example.org"; roles := rs |} |}.

End TestDouble.

(** ** Vocabulary of the specification *)

(** The response bodies of the four kinds of failure. *)
Definition MissingToken : Json :=
  JObj [("error", JStr "Access denied. No token provided.")].

Definition InvalidToken : Json :=
  JObj [("error", JStr "Invalid or expired token.")].

Definition NotAuthenticated : Json :=
  JObj [("error", JStr "Not authenticated")].

Definition InsufficientRole (required userRoles : list string) : Json :=
  JObj [("error", JStr "Access denied. Insufficient permissions.");
        ("required", jstrings required);
        ("userRoles", jstrings userRoles)].

(** The header has the shape [Bearer <token>], with a token part. *)
Definition well_formed_bearer (h : string) : Prop :=
  exists tok, tok <> "" /\ h = "Bearer " ++ tok.

(** The second space-separated field of the header. *)
Definition secondField (h : string) : option string :=
  nth_error (Js.split " " h) 1.

(** The string has no space in it. *)
Fixpoint spaceless (w : string) : bool :=
  match w with
  | EmptyString => true
  | String c w' => negb (Ascii.eqb c " ") && spaceless w'
  end.

(** The request carries no token: the header is absent or empty, or its
    second space-separated field is absent or empty. *)
Definition lacks_token (req : Request) : Prop :=
  match authorization req with
  | None => True
  | Some h => h = "" \/ secondField h = None \/ secondField h = Some ""
  end.

(** The request presents the token [tok]. *)
Definition presents (req : Request) (tok : string) : Prop :=
  bearerToken (authorization req) = Some tok /\ tok <> "".

(** The realm-role claim of a payload, when it is there. *)
Definition realmRoles (d : Decoded) : option (list string) :=
  match realm_access d with
  | Some ra => ra_roles ra
  | None => None
  end.

(** The Identity of the specification's data model: the roles are the
    lower-cased realm roles. *)
Definition specIdentity {host : Host} (d : Decoded) : Identity :=
  {| id := sub d;
     username := preferred_username d;
     u_email := email d;
     roles := map toLowerCase
                (match realmRoles d with Some rs => rs | None => [] end) |}.

(** The role rule of the specification: the case-insensitive intersection
    of the identity's roles and the required set is not empty. *)
Definition shares_role {host : Host} (rs required : list string) : Prop :=
  exists r q, In r rs /\ In q required /\ toLowerCase r = toLowerCase q.

(** The test [requireRole] computes. *)
Definition hasRole {host : Host} (u : Identity) (allowedRoles : list string)
    : bool :=
  Js.some (fun role =>
             Js.includes (map toLowerCase (roles u)) (toLowerCase role))
          allowedRoles.

(** The middleware ended the request itself: [next()] was not called, the
    request object is as it came in, and a body was sent. *)
Definition rejected (req : Request) (st : St) : Prop :=
  st_next st = 0%nat /\ st_req st = req /\ sent (st_res st) <> None.

(** The realm roles of a payload as [authenticateToken] reads them:
    [decoded.realm_access?.roles || []]. *)
Definition realmRoleList (d : Decoded) : list string :=
  match realmRoles d with Some rs => rs | None => [] end.

(** The request with the identity [u] attached. *)
Definition withUser (h : option string) (u : Identity) : Request :=
  {| authorization := h; user := Some u |}.

(** The middleware that ended in [st] worked on the request alone: it did
    not call [jwt.verify], did not change the request, and left the key
    cache, the fetch count, the clock and the endpoint as they were; it
    either sent a response without calling [next()], or called [next()]
    once, sent nothing and wrote nothing to the console. *)
Definition local_to_request (s : Sys) (req : Request) (st : St) : Prop :=
  st_verify st = []
  /\ st_req st = req
  /\ keyCache (st_sys st) = keyCache s
  /\ fetches (st_sys st) = fetches s
  /\ now (st_sys st) = now s
  /\ endpoint (st_sys st) = endpoint s
  /\ (st_next st = 0%nat /\ sent (st_res st) <> None
      \/ st_next st = 1%nat /\ sent (st_res st) = None /\ st_sys st = s).

(** ** server.js *)

(** The environment variables [server.js] reads. *)
Record ServerEnv : Type := {
  FRONTEND_URL : option string;
  PORT : option string
}.

(** [array.filter(Boolean)] on an array of strings and [undefined]s. *)
Fixpoint filterBoolean (l : list (option string)) : list string :=
  match l with
  | [] => []
  | v :: rest =>
      match v with
      | Some x => if Js.truthy v then x :: filterBoolean rest
                  else filterBoolean rest
      | None => filterBoolean rest
      end
  end.

Definition allowedOrigins (env : ServerEnv) : list string :=
  filterBoolean
    [Some "http://localhost:3000";
     Some "http://localhost:30000";
     Some "https://patientsystem-frontend.app.cloud.cbh.kth.se";
     FRONTEND_URL env].

(** An error as the server's error handler reads it: [error.message] and
    [error.status], either of which may be [undefined]. *)
Record ServerError : Type := {
  se_message : option string;
  se_status : option nat
}.

(** [new Error(msg)] *)
Definition newError (msg : string) : ServerError :=
  {| se_message := Some msg; se_status := None |}.

(** The [origin] function given to [cors]: what it hands to its callback,
    an error or [true]. *)
Definition corsOrigin (env : ServerEnv) (origin : option string) (s : Sys)
    : (ServerError + bool) * Sys :=
  match origin with
  | Some o =>
      if negb (Js.truthy origin) then (inr true, s)
      else if Js.includes (allowedOrigins env) o then (inr true, s)
      else (inl (newError "Not allowed by CORS"),
            write_console Stdout [JStr "CORS blocked origin:"; JStr o] s)
  | None => (inr true, s)
  end.

(** [error.status || 500] *)
Definition statusOr500 (e : ServerError) : nat :=
  match se_status e with
  | Some 0 => 500
  | Some n => n
  | None => 500
  end.

(** A number on the console, in decimal. *)
Definition jnum (n : nat) : Json := JStr (NilEmpty.string_of_uint (Nat.to_uint n)).

(** The error object as the console shows it. *)
Definition errorJson (e : ServerError) : Json :=
  JObj [("message", jopt (se_message e));
        ("status", match se_status e with
                   | Some n => jnum n
                   | None => JUndefined
                   end)].

Definition CorsNotAllowed : Json := JObj [("error", JStr "CORS not allowed")].

(** The error-handling middleware [(error, req, res, next) => ...]. *)
Definition errorHandler (error : ServerError) : M unit :=
  console_error [JStr "Error:"; errorJson error] ;;
  match se_message error with
  | Some m =>
      if String.eqb m "Not allowed by CORS" then
        res_status 403 ;; res_json (JObj [("error", JStr "CORS not allowed")])
      else
        res_status (statusOr500 error) ;;
        res_json (JObj [("error",
                         JStr (Js.or_default (se_message error)
                                 "Internal server error"))])
  | None =>
      res_status (statusOr500 error) ;;
      res_json (JObj [("error",
                       JStr (Js.or_default (se_message error)
                               "Internal server error"))])
  end.

(** A host for closed examples: its [toLowerCase] folds the ASCII letters
    and nothing else. *)
Definition asciiHost : Host :=
  {| toLowerCase := Js.asciiLower;
     toLowerCase_ascii := fun s _ => eq_refl |}.

(** A server environment with a front-end URL, for closed examples. *)
Definition serverEnv0 : ServerEnv :=
  {| FRONTEND_URL := Some "https://front.example"; PORT := None |}.

(** * Properties *)

(** ** Running [authenticateToken] *)

Lemma truthy_false (v : option string) :
  Js.truthy v = false <-> v = None \/ v = Some "".
Proof.
  destruct v as [[|c s]|]; simpl; split; intro H; try reflexivity;
    try discriminate; auto; destruct H as [H|H]; discriminate.
Qed.

Lemma lacks_token_falsy (req : Request) :
  lacks_token req <-> Js.truthy (bearerToken (authorization req)) = false.
Proof.
  unfold lacks_token, secondField, bearerToken.
  destruct (authorization req) as [h|]; [|simpl; tauto].
  destruct h as [|c h].
  - simpl. tauto.
  - change (Js.truthy (Some (String c h))) with true. cbv iota.
    rewrite truthy_false. split.
    + intros [H|H]; [discriminate|exact H].
    + intro H. right. exact H.
Qed.

Lemma presents_truthy (req : Request) (tok : string) :
  presents req tok -> Js.truthy (bearerToken (authorization req)) = true.
Proof.
  intros [H Hne]. rewrite H. destruct tok; [congruence|reflexivity].
Qed.

Lemma token_or_not (req : Request) :
  lacks_token req \/ exists tok, presents req tok.
Proof.
  destruct (Js.truthy (bearerToken (authorization req))) eqn:E.
  - right. destruct (bearerToken (authorization req)) as [t|] eqn:Et;
      [|discriminate].
    exists t. split; [exact Et|]. intros ->. discriminate.
  - left. apply lacks_token_falsy. exact E.
Qed.

(** Without a token the request is answered at once. *)
Lemma authenticate_no_token (L : JwtLibrary) (env : ProcessEnv) (s : Sys)
    (req : Request) :
  lacks_token req ->
  handle (authenticateToken L env) s req =
    {| st_sys := write_console Stdout [JStr "No token provided"] s;
       st_req := req;
       st_res := {| statusCode := 401; sent := Some MissingToken |};
       st_next := 0;
       st_verify := [] |}.
Proof.
  intro H. apply lacks_token_falsy in H.
  unfold handle, authenticateToken, bind, get_req. cbn [st_req fst snd].
  destruct (bearerToken (authorization req)) as [t|]; [rewrite H|]; reflexivity.
Qed.

(** With a token, [jwt.verify] is called once, with [getKey] and
    [jwtOptions], and its callback finishes the request. *)
Lemma authenticate_token (L : JwtLibrary) (env : ProcessEnv) (s : Sys)
    (req : Request) (tok : string) :
  presents req tok ->
  handle (authenticateToken L env) s req =
    let r := jwt_verify L tok (getKey env) (jwtOptions env) s in
    snd (verified (fst r)
           {| st_sys := snd r; st_req := req;
              st_res := {| statusCode := 200; sent := None |};
              st_next := 0;
              st_verify := [(tok, jwtOptions env)] |}).
Proof.
  intro H. pose proof (presents_truthy _ _ H) as Ht. destruct H as [H _].
  unfold handle, authenticateToken, bind, get_req. cbn [st_req fst snd].
  rewrite H in *. rewrite Ht. cbn [negb].
  unfold verify. cbn [st_sys st_req st_res st_next st_verify].
  destruct (jwt_verify L tok (getKey env) (jwtOptions env) s) as [r s'].
  reflexivity.
Qed.

Lemma authenticate_invalid (L : JwtLibrary) (env : ProcessEnv) (s : Sys)
    (req : Request) (tok : string) (e : JsError) (s' : Sys) :
  presents req tok ->
  jwt_verify L tok (getKey env) (jwtOptions env) s = (inl e, s') ->
  handle (authenticateToken L env) s req =
    {| st_sys := write_console Stderr
                   [JStr "Token verification failed:"; JStr (message e)] s';
       st_req := req;
       st_res := {| statusCode := 403; sent := Some InvalidToken |};
       st_next := 0;
       st_verify := [(tok, jwtOptions env)] |}.
Proof.
  intros H E. rewrite (authenticate_token L env s req tok H), E. reflexivity.
Qed.

Lemma authenticate_valid (L : JwtLibrary) (env : ProcessEnv) (s : Sys)
    (req : Request) (tok : string) (d : Decoded) (s' : Sys) :
  presents req tok ->
  jwt_verify L tok (getKey env) (jwtOptions env) s = (inr d, s') ->
  handle (authenticateToken L env) s req =
    {| st_sys := write_console Stdout
                   [JStr "Authenticated user:"; jopt (preferred_username d);
                    JStr "Roles:"; jstrings (roles (identityOf d))] s';
       st_req := {| authorization := authorization req;
                    user := Some (identityOf d) |};
       st_res := {| statusCode := 200; sent := None |};
       st_next := 1;
       st_verify := [(tok, jwtOptions env)] |}.
Proof.
  intros H E. rewrite (authenticate_token L env s req tok H), E. reflexivity.
Qed.

(** ** C1: requests without a token *)

Lemma split_spaceless (w : string) :
  spaceless w = true -> Js.split " " w = [w].
Proof.
  induction w as [|c w IH]; [reflexivity|].
  simpl. destruct (Ascii.eqb c " "); [discriminate|].
  intro H. rewrite (IH H). reflexivity.
Qed.

Lemma split_field (a b : string) :
  spaceless a = true ->
  Js.split " " (a ++ " " ++ b) = a :: Js.split " " b.
Proof.
  induction a as [|c a IH]; [reflexivity|].
  simpl. destruct (Ascii.eqb c " "); [discriminate|].
  intro H. specialize (IH H). simpl in IH. rewrite IH. reflexivity.
Qed.

Lemma secondField_scheme (scheme tok : string) :
  spaceless scheme = true -> spaceless tok = true ->
  secondField (scheme ++ " " ++ tok) = Some tok.
Proof.
  intros Hs Ht. unfold secondField.
  rewrite (split_field _ _ Hs), (split_spaceless _ Ht). reflexivity.
Qed.

(** C1, as amended.  A request whose Authorization header is absent or
    empty, or whose second space-separated field is absent or empty, is
    answered 401 "No token provided", [jwt.verify] is not called and the
    request object is left as it came in.  The scheme word is not
    inspected: for every word [scheme] and every non-empty [tok] without
    spaces, the header [scheme tok] has [jwt.verify] called with [tok]. *)
Theorem missing_token_401 (L : JwtLibrary) (env : ProcessEnv) (s : Sys)
    (req : Request) :
  (lacks_token req ->
     responded (handle (authenticateToken L env) s req) 401 MissingToken
     /\ st_verify (handle (authenticateToken L env) s req) = []
     /\ st_req (handle (authenticateToken L env) s req) = req)
  /\ (forall scheme tok,
        authorization req = Some (scheme ++ " " ++ tok) ->
        spaceless scheme = true -> spaceless tok = true -> tok <> "" ->
        st_verify (handle (authenticateToken L env) s req)
          = [(tok, jwtOptions env)]).
Proof.
  split.
  - intro H. rewrite (authenticate_no_token L env s req H).
    repeat split.
  - intros scheme tok Hh Hs Ht Hne.
    assert (P : presents req tok).
    { split; [|exact Hne]. rewrite Hh. unfold bearerToken.
      pose proof (secondField_scheme scheme tok Hs Ht) as Hf.
      destruct (scheme ++ " " ++ tok) as [|c h] eqn:E.
      - destruct scheme; discriminate.
      - exact Hf. }
    rewrite (authenticate_token L env s req tok P). cbv zeta.
    destruct (jwt_verify L tok (getKey env) (jwtOptions env) s) as [[e|d] s'];
      reflexivity.
Qed.

Lemma missing_token_401_witness :
  (responded (handle (authenticateToken TestDouble.lib TestDouble.env0)
                TestDouble.sys0 (TestDouble.request (Some "Bearer")))
     401 MissingToken
   /\ st_verify (handle (authenticateToken TestDouble.lib TestDouble.env0)
                   TestDouble.sys0 (TestDouble.request (Some "Bearer"))) = []
   /\ st_req (handle (authenticateToken TestDouble.lib TestDouble.env0)
                TestDouble.sys0 (TestDouble.request (Some "Bearer")))
      = TestDouble.request (Some "Bearer"))
  /\ st_verify (handle (authenticateToken TestDouble.lib TestDouble.env0)
                  TestDouble.sys0 (TestDouble.request (Some "Basic good")))
     = [("good", jwtOptions TestDouble.env0)].
Proof.
  split.
  - apply (proj1 (missing_token_401 TestDouble.lib TestDouble.env0
                    TestDouble.sys0 (TestDouble.request (Some "Bearer")))).
    right. left. reflexivity.
  - apply (proj2 (missing_token_401 TestDouble.lib TestDouble.env0
                    TestDouble.sys0 (TestDouble.request (Some "Basic good")))
             "Basic" "good").
    + reflexivity.
    + reflexivity.
    + reflexivity.
    + discriminate.
Defined.

(** C1 as stated fails: "Basic abc" is not of the shape Bearer <token>, yet
    [jwt.verify] is called with "abc" and the answer is not the 401 of a
    missing token. *)
Lemma wrong_scheme_is_verified :
  ~ (forall (L : JwtLibrary) (env : ProcessEnv) (s : Sys) (req : Request),
       (authorization req = None
        \/ exists h, authorization req = Some h /\ ~ well_formed_bearer h) ->
       responded (handle (authenticateToken L env) s req) 401 MissingToken
       /\ st_verify (handle (authenticateToken L env) s req) = []).
Proof.
  intro H.
  destruct (H TestDouble.lib TestDouble.env0 TestDouble.sys0
              (TestDouble.request (Some "Basic abc"))) as [_ Hv].
  - right. exists "Basic abc". split; [reflexivity|].
    intros [tok [_ E]]. discriminate E.
  - vm_compute in Hv. discriminate Hv.
Qed.

(** ** C2: the role gate *)

Lemma includes_In (l : list string) (x : string) :
  Js.includes l x = true <-> In x l.
Proof.
  unfold Js.includes. rewrite existsb_exists. split.
  - intros [y [Hy E]]. apply String.eqb_eq in E. subst. exact Hy.
  - intro H. exists x. split; [exact H|apply String.eqb_refl].
Qed.

Lemma hasRole_shares {host : Host} (u : Identity) (allowed : list string) :
  hasRole u allowed = true <-> shares_role (roles u) allowed.
Proof.
  unfold hasRole, Js.some, shares_role. rewrite existsb_exists. split.
  - intros [q [Hq Hin]]. apply includes_In in Hin. apply in_map_iff in Hin.
    destruct Hin as [r [E Hr]]. exists r, q. auto.
  - intros [r [q [Hr [Hq E]]]]. exists q. split; [exact Hq|].
    apply includes_In. rewrite <- E. apply in_map. exact Hr.
Qed.

Lemma requireRole_identity {host : Host} (s : Sys) (req : Request) (u : Identity)
    (allowed : list string) :
  user req = Some u ->
  handle (requireRole allowed) s req =
    if hasRole u allowed
    then {| st_sys := s; st_req := req;
            st_res := {| statusCode := 200; sent := None |};
            st_next := 1; st_verify := [] |}
    else {| st_sys :=
              write_console Stdout
                [JStr ("Access denied. User " ++ Js.interpolate (username u)
                       ++ " has roles ["
                       ++ Js.join "," (map toLowerCase (roles u))
                       ++ "], needs one of [" ++ Js.join "," allowed ++ "]")]
                s;
            st_req := req;
            st_res := {| statusCode := 403;
                         sent := Some (InsufficientRole allowed
                                         (map toLowerCase (roles u))) |};
            st_next := 0; st_verify := [] |}.
Proof.
  intro H. unfold handle, requireRole, bind, get_req. cbn [st_req fst snd].
  rewrite H. fold (hasRole u allowed).
  destruct (hasRole u allowed); reflexivity.
Qed.

Lemma requireRole_anonymous {host : Host} (s : Sys) (req : Request) (allowed : list string) :
  user req = None ->
  handle (requireRole allowed) s req =
    {| st_sys := s; st_req := req;
       st_res := {| statusCode := 401; sent := Some NotAuthenticated |};
       st_next := 0; st_verify := [] |}.
Proof.
  intro H. unfold handle, requireRole, bind, get_req. cbn [st_req fst snd].
  rewrite H. reflexivity.
Qed.

Lemma map_lower_ascii {host : Host} (rs : list string) :
  forallb Js.ascii_only rs = true ->
  map toLowerCase rs = map Js.asciiLower rs.
Proof.
  induction rs as [|r rs IH]; [reflexivity|].
  simpl. intro H. apply andb_true_iff in H. destruct H as [Hr Hrs].
  rewrite (toLowerCase_ascii r Hr), (IH Hrs). reflexivity.
Qed.

Lemma hasRole_ascii {host : Host} (u : Identity) (allowed : list string) :
  forallb Js.ascii_only (roles u) = true ->
  forallb Js.ascii_only allowed = true ->
  hasRole u allowed = hasRole (host := asciiHost) u allowed.
Proof.
  intros Hu Ha. unfold hasRole, Js.some. rewrite (map_lower_ascii _ Hu).
  cbn [toLowerCase asciiHost].
  induction allowed as [|a allowed IH]; [reflexivity|].
  simpl in Ha. apply andb_true_iff in Ha. destruct Ha as [H1 H2].
  simpl. rewrite (toLowerCase_ascii a H1), (IH H2). reflexivity.
Qed.

(** The gate on an identity whose roles, like the required ones, are ASCII
    strings: the outcome is computed with the ASCII folding. *)
Ltac gate_on_ascii :=
  match goal with
  | |- context [handle (requireRole ?al) ?s ?r] =>
      match r with
      | context [Some ?u] =>
          rewrite (requireRole_identity s r u al eq_refl);
          rewrite (hasRole_ascii u al eq_refl eq_refl);
          rewrite ?(map_lower_ascii (roles u) eq_refl)
      end
  end.

(** C2.  For every identity and every required role set, the gate made by
    [requireRole] passes the request on exactly when some role of the
    identity and some required role are equal up to letter case (they
    have the same [toLowerCase]), and answers 403 exactly when there is
    none.  Roles {staff} against {doctor} are answered 403; roles
    {doctor, staff} against {doctor} are passed on; and so are roles
    {Doctor} against {DOCTOR}. *)
Theorem role_gate {host : Host} (s : Sys) (h : option string) (u : Identity)
    (allowed : list string) :
  let req := {| authorization := h; user := Some u |} in
  (passed_on (handle (requireRole allowed) s req)
     <-> shares_role (roles u) allowed)
  /\ (responded (handle (requireRole allowed) s req) 403
        (InsufficientRole allowed (map toLowerCase (roles u)))
      <-> ~ shares_role (roles u) allowed)
  /\ (forall i n e,
        responded
          (handle (requireRole ["doctor"]) s
             {| authorization := h;
                user := Some {| id := i; username := n; u_email := e;
                                roles := ["staff"] |} |})
          403 (InsufficientRole ["doctor"] ["staff"]))
  /\ (forall i n e,
        passed_on
          (handle (requireRole ["doctor"]) s
             {| authorization := h;
                user := Some {| id := i; username := n; u_email := e;
                                roles := ["doctor"; "staff"] |} |}))
  /\ (forall i n e,
        passed_on
          (handle (requireRole ["DOCTOR"]) s
             {| authorization := h;
                user := Some {| id := i; username := n; u_email := e;
                                roles := ["Doctor"] |} |})).
Proof.
  intro req. split; [|split; [|split; [|split]]].
  - rewrite (requireRole_identity s req u allowed eq_refl).
    rewrite <- hasRole_shares. split.
    + destruct (hasRole u allowed); [reflexivity|].
      intros [H _]. discriminate H.
    + intro H. rewrite H. split; reflexivity.
  - rewrite (requireRole_identity s req u allowed eq_refl).
    rewrite <- hasRole_shares. split.
    + intros [H _] Ht. rewrite Ht in H. discriminate H.
    + intro H. destruct (hasRole u allowed); [congruence|].
      split; reflexivity.
  - intros i n e. gate_on_ascii. split; reflexivity.
  - intros i n e. gate_on_ascii. split; reflexivity.
  - intros i n e. gate_on_ascii. split; reflexivity.
Qed.

Lemma role_gate_witness :
  passed_on (handle (requireRole (host := asciiHost) ["doctor"; "staff"])
               TestDouble.sys0 (TestDouble.as_user ["Staff"]))
  <-> shares_role (host := asciiHost) ["Staff"] ["doctor"; "staff"].
Proof.
  exact (proj1 (role_gate (host := asciiHost) TestDouble.sys0
                  (Some "Bearer good")
                  {| id := Some "u-1"; username := Some "alice";
                     u_email := Some "alice@example.org"; roles := ["Staff"] |}
                  ["doctor"; "staff"])).
Defined.

(** ** The test double meets the library's contract *)

Lemma reject_fails (msg : string) (s : Sys) : fails (TestDouble.reject msg s).
Proof. exists {| message := msg |}, s. reflexivity. Qed.

Create HintDb jwt.
#[local] Hint Resolve reject_fails : jwt.

Ltac walk_verify :=
  unfold TestDouble.library in *;
  cbn [jwt_decode jwt_verify clockTolerance] in *;
  unfold TestDouble.verify;
  match goal with
  | E : TestDouble.decode _ _ = Some _ |- _ => rewrite E
  end.

Lemma double_wraps_key_errors issued tol :
  wraps_key_errors (TestDouble.library issued tol).
Proof.
  intros tok j gk opts s e s1 E G. walk_verify.
  rewrite G. auto with jwt.
Qed.

Lemma double_rejects_other_algorithms issued tol :
  rejects_other_algorithms (TestDouble.library issued tol).
Proof.
  intros tok j gk opts s E N. walk_verify.
  destruct (gk (header j) s) as [[e|key] s']; [auto with jwt|].
  destruct (Js.includes (algorithms opts) (alg (header j))) eqn:I.
  - apply includes_In in I. contradiction.
  - cbn [negb]. auto with jwt.
Qed.

Lemma double_validates_issuer issued tol :
  validates_issuer (TestDouble.library issued tol).
Proof.
  intros tok j gk opts s E N. walk_verify.
  destruct (gk (header j) s) as [[e|key] s']; [auto with jwt|].
  destruct (negb (Js.includes _ _)); [auto with jwt|].
  destruct (negb (String.eqb (signature j) key)); [auto with jwt|].
  destruct (String.eqb (iss (payload j)) (issuer opts)) eqn:I.
  - apply String.eqb_eq in I. contradiction.
  - cbn [negb]. auto with jwt.
Qed.

Lemma double_validates_expiry issued tol :
  validates_expiry (TestDouble.library issued tol).
Proof.
  intros tok j gk opts s E N. walk_verify.
  destruct (gk (header j) s) as [[e|key] s']; [auto with jwt|].
  destruct (negb (Js.includes _ _)); [auto with jwt|].
  destruct (negb (String.eqb (signature j) key)); [auto with jwt|].
  destruct (negb (String.eqb (iss (payload j)) (issuer opts))); [auto with jwt|].
  destruct (clockTimestamp s <? iat (payload j) - tol)%Z; [auto with jwt|].
  destruct (exp (payload j) + tol <? clockTimestamp s)%Z eqn:B; [auto with jwt|].
  apply Z.ltb_ge in B. exfalso. lia.
Qed.

Lemma double_validates_issued_at issued tol :
  validates_issued_at (TestDouble.library issued tol).
Proof.
  intros tok j gk opts s E N. walk_verify.
  destruct (gk (header j) s) as [[e|key] s']; [auto with jwt|].
  destruct (negb (Js.includes _ _)); [auto with jwt|].
  destruct (negb (String.eqb (signature j) key)); [auto with jwt|].
  destruct (negb (String.eqb (iss (payload j)) (issuer opts))); [auto with jwt|].
  destruct (clockTimestamp s <? iat (payload j) - tol)%Z eqn:A; [auto with jwt|].
  apply Z.ltb_ge in A. exfalso. lia.
Qed.

(** ** C3: the identity attached to the request *)

(** C3, as amended.  After a successful verification the identity attached
    to the request has the token's subject as id, preferred_username as
    username, the email claim as email, and as roles the realm roles as
    the token carries them, letter case kept; the roles are the empty
    list when the realm-role claim is absent. *)
Theorem identity_of_claims (L : JwtLibrary) (env : ProcessEnv) (s s' : Sys)
    (req : Request) (tok : string) (d : Decoded) :
  presents req tok ->
  jwt_verify L tok (getKey env) (jwtOptions env) s = (inr d, s') ->
  exists u,
    user (st_req (handle (authenticateToken L env) s req)) = Some u
    /\ id u = sub d
    /\ username u = preferred_username d
    /\ u_email u = email d
    /\ roles u = match realmRoles d with Some rs => rs | None => [] end.
Proof.
  intros P E. rewrite (authenticate_valid L env s req tok d s' P E).
  exists (identityOf d). cbn [st_req user].
  repeat split. unfold identityOf, realmRoles. cbn [roles].
  destruct (realm_access d) as [ra|]; reflexivity.
Qed.

Lemma identity_of_claims_witness :
  (exists u,
     user (st_req (handle (authenticateToken TestDouble.lib TestDouble.env0)
                     TestDouble.sys0
                     (TestDouble.request (Some "Bearer noroles")))) = Some u
     /\ id u = Some "u-1"
     /\ username u = Some "alice"
     /\ u_email u = Some "alice@example.org"
     /\ roles u = []).
Proof.
  refine (identity_of_claims TestDouble.lib TestDouble.env0 TestDouble.sys0 _
            (TestDouble.request (Some "Bearer noroles")) "noroles"
            (TestDouble.claims TestDouble.realm None 1000 2000) _ _).
  - split; [reflexivity|discriminate].
  - reflexivity.
Defined.

(** C3 as stated fails, whatever the host's [toLowerCase] does beyond
    ASCII: a verified token whose realm role is "Doctor" leaves "Doctor"
    in the attached identity, not "doctor". *)
Lemma attached_roles_keep_case :
  ~ (exists host : Host,
       forall (L : JwtLibrary) (env : ProcessEnv) (s s' : Sys) (req : Request)
              (tok : string) (d : Decoded),
         presents req tok ->
         jwt_verify L tok (getKey env) (jwtOptions env) s = (inr d, s') ->
         user (st_req (handle (authenticateToken L env) s req))
           = Some (specIdentity d)).
Proof.
  intros [host H].
  assert (P : presents (TestDouble.request (Some "Bearer good")) "good")
    by (split; [reflexivity|discriminate]).
  specialize (H TestDouble.lib TestDouble.env0 TestDouble.sys0 _
                (TestDouble.request (Some "Bearer good")) "good" _ P eq_refl).
  apply (f_equal (option_map roles)) in H. cbn in H.
  rewrite (toLowerCase_ascii "Doctor" eq_refl) in H.
  discriminate H.
Qed.

(** ** C9 and C10: gates reached without an identity *)

Lemma requireAuthenticated_run (s : Sys) (req : Request) :
  handle requireAuthenticated s req =
    match user req with
    | None => {| st_sys := s; st_req := req;
                 st_res := {| statusCode := 401; sent := Some NotAuthenticated |};
                 st_next := 0; st_verify := [] |}
    | Some _ => {| st_sys := s; st_req := req;
                   st_res := {| statusCode := 200; sent := None |};
                   st_next := 1; st_verify := [] |}
    end.
Proof.
  unfold handle, requireAuthenticated, bind, get_req. cbn [st_req fst snd].
  destruct (user req); reflexivity.
Qed.

(** C9.  [requireAuthenticated] answers 401 "Not authenticated" exactly
    when the request carries no identity; with any identity attached,
    whatever its roles, it calls [next()], sends nothing and leaves the
    request as it is. *)
Theorem requireAuthenticated_iff (s : Sys) (req : Request) :
  (responded (handle requireAuthenticated s req) 401 NotAuthenticated
     <-> user req = None)
  /\ (passed_on (handle requireAuthenticated s req)
        <-> exists u, user req = Some u)
  /\ (forall h i n e rs,
        let req' := {| authorization := h;
                       user := Some {| id := i; username := n; u_email := e;
                                       roles := rs |} |} in
        passed_on (handle requireAuthenticated s req')
        /\ st_req (handle requireAuthenticated s req') = req').
Proof.
  rewrite requireAuthenticated_run. split; [|split].
  - destruct (user req) as [u|]; split.
    + intros [H _]. discriminate H.
    + discriminate.
    + reflexivity.
    + intros _. split; reflexivity.
  - destruct (user req) as [u|]; split.
    + intros _. exists u. reflexivity.
    + intros _. split; reflexivity.
    + intros [H _]. discriminate H.
    + intros [u H]. discriminate H.
  - intros h i n e rs req'. rewrite requireAuthenticated_run.
    split; [split|]; reflexivity.
Qed.

(** C10.  A gate made by [requireRole], reached by a request with no
    identity, answers 401 "Not authenticated" and does nothing else:
    [next()] is not called, nothing is written to the console, and the
    outcome is the same for every required role set, so no role is
    looked at. *)
Theorem requireRole_unauthenticated {host : Host} (s : Sys) (req : Request)
    (allowed : list string) :
  user req = None ->
  responded (handle (requireRole allowed) s req) 401 NotAuthenticated
  /\ st_sys (handle (requireRole allowed) s req) = s
  /\ st_req (handle (requireRole allowed) s req) = req
  /\ forall allowed',
       handle (requireRole allowed') s req = handle (requireRole allowed) s req.
Proof.
  intro H. rewrite (requireRole_anonymous s req allowed H).
  repeat split. intro allowed'. apply requireRole_anonymous. exact H.
Qed.

Lemma requireRole_unauthenticated_witness :
  responded (handle (requireDoctor (host := asciiHost)) TestDouble.sys0 (TestDouble.request None))
    401 NotAuthenticated
  /\ st_sys (handle (requireDoctor (host := asciiHost)) TestDouble.sys0 (TestDouble.request None))
     = TestDouble.sys0
  /\ st_req (handle (requireDoctor (host := asciiHost)) TestDouble.sys0 (TestDouble.request None))
     = TestDouble.request None
  /\ forall allowed',
       handle (requireRole (host := asciiHost) allowed') TestDouble.sys0 (TestDouble.request None)
       = handle (requireDoctor (host := asciiHost)) TestDouble.sys0 (TestDouble.request None).
Proof.
  apply (requireRole_unauthenticated (host := asciiHost) TestDouble.sys0 (TestDouble.request None)
           ["doctor"]).
  reflexivity.
Defined.

(** ** C4: one status for each kind of failure *)

Lemma getKey_error (env : ProcessEnv) (hd : JwtHeader) (s : Sys) (e : JsError)
    (c : KeyResolver.KeyCache) (f : bool) :
  KeyResolver.resolveKey (KeyResolver.clientConfig env) (now s) (endpoint s)
    (kid hd) (keyCache s) = (KeyResolver.KeyResolutionError e, c, f) ->
  exists s1, getKey env hd s = (inl e, s1).
Proof.
  intro H. unfold getKey, getSigningKey. rewrite H. eexists. reflexivity.
Qed.

(** C4.  The four kinds of failure and their statuses.
    - No token (MissingTokenError): 401.
    - [jwt.verify] reports an error, whatever its cause
      (InvalidTokenError): 403.  When the library reports errors of the
      key callback as verification errors, a failed key resolution
      (KeyResolutionError) is among them: 403.
    - A gate reached without identity (NotAuthenticatedError): 401, for
      [requireAuthenticated] and for every [requireRole] gate.
    - An identity without a required role (InsufficientRoleError): 403,
      and the body's [required] is the required role list, its
      [userRoles] the identity's roles, lower-cased. *)
Theorem error_statuses {host : Host} (L : JwtLibrary) (env : ProcessEnv) (s : Sys)
    (req : Request) :
  (lacks_token req ->
     responded (handle (authenticateToken L env) s req) 401 MissingToken)
  /\ (forall tok,
        presents req tok ->
        fails (jwt_verify L tok (getKey env) (jwtOptions env) s) ->
        responded (handle (authenticateToken L env) s req) 403 InvalidToken)
  /\ (forall tok j e c f,
        wraps_key_errors L ->
        presents req tok ->
        jwt_decode L tok = Some j ->
        KeyResolver.resolveKey (KeyResolver.clientConfig env) (now s)
          (endpoint s) (kid (header j)) (keyCache s)
          = (KeyResolver.KeyResolutionError e, c, f) ->
        responded (handle (authenticateToken L env) s req) 403 InvalidToken)
  /\ (user req = None ->
        responded (handle requireAuthenticated s req) 401 NotAuthenticated
        /\ forall allowed,
             responded (handle (requireRole allowed) s req) 401 NotAuthenticated)
  /\ (forall u allowed,
        user req = Some u ->
        ~ shares_role (roles u) allowed ->
        exists body,
          responded (handle (requireRole allowed) s req) 403 body
          /\ field "required" body = Some (jstrings allowed)
          /\ field "userRoles" body
               = Some (jstrings (map toLowerCase (roles u)))).
Proof.
  assert (Inv : forall tok,
             presents req tok ->
             fails (jwt_verify L tok (getKey env) (jwtOptions env) s) ->
             responded (handle (authenticateToken L env) s req) 403 InvalidToken).
  { intros tok P [e [s' E]].
    rewrite (authenticate_invalid L env s req tok e s' P E).
    split; reflexivity. }
  split; [|split; [|split; [|split]]].
  - intro H. rewrite (authenticate_no_token L env s req H). split; reflexivity.
  - exact Inv.
  - intros tok j e c f W P D R. apply (Inv tok P).
    destruct (getKey_error env (header j) s e c f R) as [s1 G].
    exact (W tok j (getKey env) (jwtOptions env) s e s1 D G).
  - intro H. split.
    + rewrite requireAuthenticated_run, H. split; reflexivity.
    + intro allowed. rewrite (requireRole_anonymous s req allowed H).
      split; reflexivity.
  - intros u allowed H N.
    exists (InsufficientRole allowed (map toLowerCase (roles u))).
    rewrite (requireRole_identity s req u allowed H).
    destruct (hasRole u allowed) eqn:E.
    + apply hasRole_shares in E. contradiction.
    + repeat split.
Qed.

Lemma error_statuses_witness :
  responded (TestDouble.auth None) 401 MissingToken
  /\ responded (TestDouble.auth (Some "Bearer expired")) 403 InvalidToken
  /\ responded (TestDouble.auth (Some "Bearer unknownkey")) 403 InvalidToken
  /\ (responded (handle requireAuthenticated TestDouble.sys0
                   (TestDouble.request None)) 401 NotAuthenticated
      /\ forall allowed,
           responded (handle (requireRole (host := asciiHost) allowed) TestDouble.sys0
                        (TestDouble.request None)) 401 NotAuthenticated)
  /\ (exists body,
        responded (handle (requireRole (host := asciiHost) ["doctor"]) TestDouble.sys0
                     (TestDouble.as_user ["Staff"])) 403 body
        /\ field "required" body = Some (jstrings ["doctor"])
        /\ field "userRoles" body = Some (jstrings ["staff"])).
Proof.
  split; [|split; [|split; [|split]]].
  - apply (proj1 (error_statuses (host := asciiHost) TestDouble.lib TestDouble.env0 TestDouble.sys0
                    (TestDouble.request None))).
    exact I.
  - apply (proj1 (proj2 (error_statuses (host := asciiHost) TestDouble.lib TestDouble.env0
                           TestDouble.sys0
                           (TestDouble.request (Some "Bearer expired"))))
             "expired").
    + split; [reflexivity|discriminate].
    + eexists. eexists. reflexivity.
  - eapply (proj1 (proj2 (proj2
               (error_statuses (host := asciiHost) TestDouble.lib TestDouble.env0 TestDouble.sys0
                  (TestDouble.request (Some "Bearer unknownkey")))))
              "unknownkey").
    + apply double_wraps_key_errors.
    + split; [reflexivity|discriminate].
    + reflexivity.
    + reflexivity.
  - apply (proj1 (proj2 (proj2 (proj2
              (error_statuses (host := asciiHost) TestDouble.lib TestDouble.env0 TestDouble.sys0
                 (TestDouble.request None)))))).
    reflexivity.
  - apply (proj2 (proj2 (proj2 (proj2
              (error_statuses (host := asciiHost) TestDouble.lib TestDouble.env0 TestDouble.sys0
                 (TestDouble.as_user ["Staff"])))))
             {| id := Some "u-1"; username := Some "alice";
                u_email := Some "alice@example.org"; roles := ["Staff"] |}
             ["doctor"]).
    + reflexivity.
    + intros [r [q [[Hr|[]] [[Hq|[]] E]]]]. subst. discriminate E.
Defined.

(** ** C5: no partial success *)

(** C5.  When a step of the authentication fails (there is no token, or
    [jwt.verify] reports an error) [authenticateToken] does not call
    [next()], leaves the request object as it came in, and answers 401 or
    403.  Every run ends in one of two ways: the request is passed on with
    the identity of a verified payload attached and nothing sent, or it
    is rejected in that way. *)
Theorem no_partial_success (L : JwtLibrary) (env : ProcessEnv) (s : Sys)
    (req : Request) :
  let st := handle (authenticateToken L env) s req in
  let failed :=
    lacks_token req
    \/ exists tok, presents req tok
         /\ fails (jwt_verify L tok (getKey env) (jwtOptions env) s) in
  let refused :=
    rejected req st
    /\ (responded st 401 MissingToken \/ responded st 403 InvalidToken) in
  let accepted :=
    passed_on st
    /\ exists tok d s',
         presents req tok
         /\ jwt_verify L tok (getKey env) (jwtOptions env) s = (inr d, s')
         /\ st_req st = {| authorization := authorization req;
                           user := Some (identityOf d) |} in
  (failed -> refused) /\ (accepted \/ refused) /\ ~ (accepted /\ refused).
Proof.
  cbv zeta.
  assert (F : lacks_token req
              \/ (exists tok, presents req tok
                    /\ fails (jwt_verify L tok (getKey env) (jwtOptions env) s)) ->
              rejected req (handle (authenticateToken L env) s req)
              /\ (responded (handle (authenticateToken L env) s req) 401 MissingToken
                  \/ responded (handle (authenticateToken L env) s req) 403
                       InvalidToken)).
  { intros [H|[tok [P [e [s' E]]]]].
    - rewrite (authenticate_no_token L env s req H).
      split; [repeat split; discriminate|left; split; reflexivity].
    - rewrite (authenticate_invalid L env s req tok e s' P E).
      split; [repeat split; discriminate|right; split; reflexivity]. }
  split; [exact F|split].
  - destruct (token_or_not req) as [H|[tok P]]; [right; apply F; left; exact H|].
    destruct (jwt_verify L tok (getKey env) (jwtOptions env) s) as [[e|d] s'] eqn:E.
    + right. apply F. right. exists tok. split; [exact P|].
      rewrite E. exists e, s'. reflexivity.
    + left. rewrite (authenticate_valid L env s req tok d s' P E).
      split; [split; reflexivity|]. exists tok, d, s'. auto.
  - intros [[[N _] _] [[Z _] _]]. rewrite Z in N. discriminate N.
Qed.

Lemma no_partial_success_witness :
  rejected (TestDouble.request (Some "Bearer foreign"))
    (TestDouble.auth (Some "Bearer foreign"))
  /\ (responded (TestDouble.auth (Some "Bearer foreign")) 401 MissingToken
      \/ responded (TestDouble.auth (Some "Bearer foreign")) 403 InvalidToken).
Proof.
  apply (proj1 (no_partial_success TestDouble.lib TestDouble.env0
                  TestDouble.sys0 (TestDouble.request (Some "Bearer foreign")))).
  right. exists "foreign". split.
  - split; [reflexivity|discriminate].
  - eexists. eexists. reflexivity.
Defined.

(** ** C6: the algorithm is fixed to RS256 *)

Lemma only_RS256 (L : JwtLibrary) (env : ProcessEnv) (s : Sys) (req : Request) :
  Forall (fun call => algorithms (snd call) = ["RS256"])
         (st_verify (handle (authenticateToken L env) s req)).
Proof.
  destruct (token_or_not req) as [H|[tok P]].
  - rewrite (authenticate_no_token L env s req H). constructor.
  - rewrite (authenticate_token L env s req tok P). cbv zeta.
    destruct (jwt_verify L tok (getKey env) (jwtOptions env) s) as [[e|d] s'];
      repeat constructor.
Qed.

(** C6.  Given a library that rejects tokens declaring an algorithm
    outside the ones its options allow: a token whose header declares
    anything but RS256 is answered 403 "Invalid or expired token", is not
    passed on and gets no identity.  And every call [authenticateToken]
    makes to [jwt.verify], on any request, has [algorithms] = [RS256]. *)
Theorem other_algorithms_rejected (L : JwtLibrary) (env : ProcessEnv)
    (s : Sys) (req : Request) (tok : string) (j : Jwt) :
  rejects_other_algorithms L ->
  presents req tok ->
  jwt_decode L tok = Some j ->
  alg (header j) <> "RS256" ->
  responded (handle (authenticateToken L env) s req) 403 InvalidToken
  /\ st_req (handle (authenticateToken L env) s req) = req
  /\ forall s0 req0,
       Forall (fun call => algorithms (snd call) = ["RS256"])
              (st_verify (handle (authenticateToken L env) s0 req0)).
Proof.
  intros C P D A.
  destruct (C tok j (getKey env) (jwtOptions env) s D) as [e [s' E]].
  { cbn [algorithms jwtOptions]. intros [H|[]]. congruence. }
  rewrite (authenticate_invalid L env s req tok e s' P E).
  split; [split; reflexivity|]. split; [reflexivity|].
  intros s0 req0. apply only_RS256.
Qed.

Lemma other_algorithms_rejected_witness :
  responded (TestDouble.auth (Some "Bearer hs256")) 403 InvalidToken
  /\ st_req (TestDouble.auth (Some "Bearer hs256"))
     = TestDouble.request (Some "Bearer hs256")
  /\ forall s0 req0,
       Forall (fun call => algorithms (snd call) = ["RS256"])
              (st_verify (handle (authenticateToken TestDouble.lib TestDouble.env0)
                            s0 req0)).
Proof.
  apply (other_algorithms_rejected TestDouble.lib TestDouble.env0
           TestDouble.sys0 (TestDouble.request (Some "Bearer hs256")) "hs256"
           TestDouble.hs256).
  - apply double_rejects_other_algorithms.
  - split; [reflexivity|discriminate].
  - reflexivity.
  - discriminate.
Defined.

(** ** C7: issuer and time window *)

Lemma passed_on_verified (L : JwtLibrary) (env : ProcessEnv) (s : Sys)
    (req : Request) (tok : string) :
  presents req tok ->
  passed_on (handle (authenticateToken L env) s req) ->
  ~ fails (jwt_verify L tok (getKey env) (jwtOptions env) s).
Proof.
  intros P [N _] [e [s' E]].
  rewrite (authenticate_invalid L env s req tok e s' P E) in N. discriminate N.
Qed.

(** C7.  Given a library that checks the issuer against its [issuer]
    option and the clock against [exp] up to its tolerance: a presented
    token is passed on only if its issuer is the configured one
    (KEYCLOAK_ISSUER, or the default realm URL) and the current time is
    not after [exp + tolerance]; when the library checks the clock against
    [iat] as well, only if the current time is within
    [iat - tolerance, exp + tolerance].  A token whose exp is in the past
    and a token with another issuer are both answered
    403 "Invalid or expired token", not passed on and given no
    identity. *)
Theorem claims_validated (L : JwtLibrary) (env : ProcessEnv) (s : Sys)
    (req : Request) (tok : string) (j : Jwt) :
  validates_issuer L ->
  validates_expiry L ->
  presents req tok ->
  jwt_decode L tok = Some j ->
  issuer (jwtOptions env)
    = Js.or_default (KEYCLOAK_ISSUER env)
        "https://patientsystem-keycloak.app.cloud.cbh.kth.se/realms/patientsystem"
  /\ (passed_on (handle (authenticateToken L env) s req) ->
        iss (payload j) = issuer (jwtOptions env)
        /\ (clockTimestamp s <= exp (payload j) + clockTolerance L)%Z
        /\ (validates_issued_at L -> in_time_window L j s))
  /\ ((exp (payload j) + clockTolerance L < clockTimestamp s)%Z ->
        responded (handle (authenticateToken L env) s req) 403 InvalidToken
        /\ st_req (handle (authenticateToken L env) s req) = req)
  /\ (iss (payload j) <> issuer (jwtOptions env) ->
        responded (handle (authenticateToken L env) s req) 403 InvalidToken
        /\ st_req (handle (authenticateToken L env) s req) = req).
Proof.
  intros VI VE P D.
  assert (R : fails (jwt_verify L tok (getKey env) (jwtOptions env) s) ->
              responded (handle (authenticateToken L env) s req) 403 InvalidToken
              /\ st_req (handle (authenticateToken L env) s req) = req).
  { intros [e [s' E]].
    rewrite (authenticate_invalid L env s req tok e s' P E).
    split; [split|]; reflexivity. }
  split; [reflexivity|]. split; [|split].
  - intro Pass. pose proof (passed_on_verified L env s req tok P Pass) as NF.
    assert (Hexp : (clockTimestamp s <= exp (payload j) + clockTolerance L)%Z).
    { destruct (Z_le_gt_dec (clockTimestamp s)
                  (exp (payload j) + clockTolerance L)) as [Le|Gt];
        [exact Le|].
      exfalso. apply NF. apply (VE tok j _ _ s D). lia. }
    split; [|split; [exact Hexp|]].
    + destruct (string_dec (iss (payload j)) (issuer (jwtOptions env)))
        as [E|N]; [exact E|].
      exfalso. apply NF. exact (VI tok j _ _ s D N).
    + intro VA. split; [|exact Hexp].
      destruct (Z_le_gt_dec (iat (payload j) - clockTolerance L)
                  (clockTimestamp s)) as [Le|Gt]; [exact Le|].
      exfalso. apply NF. apply (VA tok j _ _ s D). lia.
  - intro Late. apply R. exact (VE tok j _ _ s D Late).
  - intro N. apply R. exact (VI tok j _ _ s D N).
Qed.

Lemma claims_validated_witness :
  (iss (payload TestDouble.good) = issuer (jwtOptions TestDouble.env0)
   /\ (clockTimestamp TestDouble.sys0
         <= exp (payload TestDouble.good) + clockTolerance TestDouble.lib)%Z
   /\ in_time_window TestDouble.lib TestDouble.good TestDouble.sys0)
  /\ (responded (TestDouble.auth (Some "Bearer expired")) 403 InvalidToken
      /\ st_req (TestDouble.auth (Some "Bearer expired"))
         = TestDouble.request (Some "Bearer expired"))
  /\ (responded (TestDouble.auth (Some "Bearer foreign")) 403 InvalidToken
      /\ st_req (TestDouble.auth (Some "Bearer foreign"))
         = TestDouble.request (Some "Bearer foreign")).
Proof.
  split; [|split].
  - assert (P : presents (TestDouble.request (Some "Bearer good")) "good").
    { split; [reflexivity|discriminate]. }
    assert (Pass : passed_on (TestDouble.auth (Some "Bearer good"))).
    { split; reflexivity. }
    destruct (proj1 (proj2
                (claims_validated TestDouble.lib TestDouble.env0
                   TestDouble.sys0
                   (TestDouble.request (Some "Bearer good")) "good"
                   TestDouble.good
                   (double_validates_issuer _ _) (double_validates_expiry _ _)
                   P eq_refl)) Pass) as [Iss [Exp Win]].
    split; [exact Iss|split; [exact Exp|]].
    apply Win. apply double_validates_issued_at.
  - refine (proj1 (proj2 (proj2
              (claims_validated TestDouble.lib TestDouble.env0 TestDouble.sys0
                 (TestDouble.request (Some "Bearer expired")) "expired"
                 TestDouble.expired
                 (double_validates_issuer _ _) (double_validates_expiry _ _)
                 _ eq_refl))) _).
    + split; [reflexivity|discriminate].
    + reflexivity.
  - refine (proj2 (proj2 (proj2
              (claims_validated TestDouble.lib TestDouble.env0 TestDouble.sys0
                 (TestDouble.request (Some "Bearer foreign")) "foreign"
                 TestDouble.foreign
                 (double_validates_issuer _ _) (double_validates_expiry _ _)
                 _ eq_refl))) _).
    + split; [reflexivity|discriminate].
    + discriminate.
Defined.
(** ** C8: the key cache *)

Module KeyResolverFacts.
Import KeyResolver.

Lemma unbind_length (kid : string) (c : KeyCache) :
  (length (unbind kid c) <= length c)%nat.
Proof. apply filter_length_le. Qed.

Lemma unbind_unbound (kid : string) (c : KeyCache) :
  lookup kid c = None -> unbind kid c = c.
Proof.
  unfold lookup, unbind. induction c as [|e c IH]; [reflexivity|].
  simpl. destruct (bound kid e); [discriminate|].
  intro H. simpl. rewrite (IH H). reflexivity.
Qed.

Lemma bound_eq (kid : string) (e : Entry) :
  bound kid e = true <-> keyId (e_key e) = kid.
Proof. unfold bound. apply String.eqb_eq. Qed.

Lemma lookup_None (kid : string) (c : KeyCache) :
  lookup kid c = None <-> ~ In kid (keys c).
Proof.
  unfold lookup, keys. induction c as [|e c IH]; simpl; [tauto|].
  destruct (bound kid e) eqn:B.
  - apply bound_eq in B. split; [discriminate|]. intro N. tauto.
  - assert (keyId (e_key e) <> kid).
    { intro E. apply bound_eq in E. congruence. }
    tauto.
Qed.

Lemma unbind_keys (kid : string) (c : KeyCache) :
  keys (unbind kid c) = filter (fun k => negb (String.eqb k kid)) (keys c).
Proof.
  unfold keys, unbind, bound. induction c as [|e c IH]; [reflexivity|].
  simpl. destruct (String.eqb (keyId (e_key e)) kid); simpl; rewrite IH;
    reflexivity.
Qed.

Lemma unbind_removes (kid : string) (c : KeyCache) :
  ~ In kid (keys (unbind kid c)).
Proof.
  rewrite unbind_keys. intro H. apply filter_In in H. destruct H as [_ H].
  rewrite String.eqb_refl in H. discriminate H.
Qed.

Lemma unbind_bound (kid : string) (c : KeyCache) :
  distinct c -> In kid (keys c) -> S (length (unbind kid c)) = length c.
Proof.
  unfold distinct. induction c as [|e c IH]; simpl; [tauto|].
  intros D [E|H]; inversion D as [|? ? Nin Dc]; subst.
  - unfold unbind at 1. simpl. fold (unbind (keyId (e_key e)) c).
    replace (bound (keyId (e_key e)) e) with true
      by (symmetry; apply bound_eq; reflexivity).
    simpl. f_equal. f_equal. apply unbind_unbound. apply lookup_None. exact Nin.
  - unfold unbind at 1. simpl. fold (unbind kid c).
    destruct (bound kid e) eqn:B.
    + apply bound_eq in B. subst. contradiction.
    + simpl. f_equal. apply IH; assumption.
Qed.

Lemma distinct_filter (f : Entry -> bool) (c : KeyCache) :
  distinct c -> distinct (filter f c).
Proof.
  unfold distinct, keys. induction c as [|e c IH]; intro D; [constructor|].
  inversion D as [|? ? Nin Dc]; subst. simpl.
  destruct (f e); [|apply IH; exact Dc].
  simpl. constructor; [|apply IH; exact Dc].
  intro H. apply Nin. apply in_map_iff in H. destruct H as [x [E Hx]].
  apply in_map_iff. exists x. split; [exact E|].
  apply filter_In in Hx. tauto.
Qed.

Lemma distinct_tl (c : KeyCache) : distinct c -> distinct (tl c).
Proof.
  destruct c as [|e c]; [trivial|]. intro D. inversion D. assumption.
Qed.

Lemma keys_tl (kid : string) (c : KeyCache) :
  In kid (keys (tl c)) -> In kid (keys c).
Proof. destruct c; simpl; tauto. Qed.

Lemma insert_distinct (cfg : Config) (e : Entry) (c : KeyCache) :
  distinct c -> distinct (insert cfg e c).
Proof.
  intro D. unfold insert.
  assert (D' : distinct (evict cfg (unbind (keyId (e_key e)) c))
               /\ ~ In (keyId (e_key e))
                      (keys (evict cfg (unbind (keyId (e_key e)) c)))).
  { pose proof (unbind_removes (keyId (e_key e)) c) as R.
    pose proof (distinct_filter (fun x => negb (bound (keyId (e_key e)) x)) c D)
      as F.
    fold (unbind (keyId (e_key e)) c) in F. unfold evict.
    destruct (cacheMaxEntries cfg <=? _)%nat; [|auto].
    split; [apply distinct_tl; exact F|].
    intro H. apply R. apply keys_tl. exact H. }
  destruct D' as [D1 D2]. unfold distinct, keys in *. rewrite map_app. simpl.
  apply NoDup_app; [exact D1|repeat constructor; simpl; tauto|].
  intros x Hx [<-|[]]. exact (D2 Hx).
Qed.

Lemma resolveKey_distinct (cfg : Config) (t : Z) (remote : JwksResponse)
    (kid : string) (c : KeyCache) :
  distinct c -> distinct (snd (fst (resolveKey cfg t remote kid c))).
Proof.
  intro D.
  assert (F : distinct (snd (fst (fetch cfg t remote kid c)))).
  { unfold fetch. destruct remote as [| |ks]; auto.
    destruct (find_key kid ks) as [k|]; auto.
    apply insert_distinct. exact D. }
  unfold resolveKey.
  destruct (lookup kid c) as [e|]; [destruct (stale cfg t e)|]; auto.
Qed.

Lemma run_distinct (cfg : Config) (ls : list Lookup) (c : KeyCache) :
  distinct c -> distinct (run cfg ls c).
Proof.
  revert c. induction ls as [|l ls IH]; intros c D; [exact D|].
  unfold run. simpl. apply IH. apply resolveKey_distinct. exact D.
Qed.

Lemma insert_full (cfg : Config) (e : Entry) (c : KeyCache) :
  (0 < cacheMaxEntries cfg)%nat ->
  length c = cacheMaxEntries cfg -> distinct c ->
  length (insert cfg e c) = cacheMaxEntries cfg.
Proof.
  intros P Full D. unfold insert. rewrite length_app. simpl.
  destruct (in_dec string_dec (keyId (e_key e)) (keys c)) as [I|N].
  - pose proof (unbind_bound _ c D I) as U. unfold evict.
    destruct (Nat.leb_spec (cacheMaxEntries cfg)
                (length (unbind (keyId (e_key e)) c))); lia.
  - apply lookup_None in N. rewrite (unbind_unbound _ _ N).
    unfold evict. rewrite Full, Nat.leb_refl. destruct c; simpl in *; lia.
Qed.

Lemma evict_length (cfg : Config) (c : KeyCache) :
  (0 < cacheMaxEntries cfg)%nat ->
  (length (evict cfg c) < cacheMaxEntries cfg)%nat
  \/ (length (evict cfg c) = length c - 1 /\ cacheMaxEntries cfg <= length c)%nat.
Proof.
  intro P. unfold evict.
  destruct (cacheMaxEntries cfg <=? length c)%nat eqn:E.
  - apply Nat.leb_le in E. right. split; [|exact E].
    destruct c; simpl; lia.
  - apply Nat.leb_gt in E. left. exact E.
Qed.

Lemma insert_bounded (cfg : Config) (e : Entry) (c : KeyCache) :
  (0 < cacheMaxEntries cfg)%nat ->
  (length c <= cacheMaxEntries cfg)%nat ->
  (length (insert cfg e c) <= cacheMaxEntries cfg)%nat.
Proof.
  intros P B. unfold insert. rewrite length_app. simpl.
  pose proof (unbind_length (keyId (e_key e)) c) as U.
  destruct (evict_length cfg (unbind (keyId (e_key e)) c) P) as [H|[H _]]; lia.
Qed.

Lemma fetch_bounded (cfg : Config) (now : Z) (remote : JwksResponse)
    (kid : string) (c : KeyCache) :
  (0 < cacheMaxEntries cfg)%nat ->
  (length c <= cacheMaxEntries cfg)%nat ->
  (length (snd (fst (fetch cfg now remote kid c))) <= cacheMaxEntries cfg)%nat.
Proof.
  intros P B. unfold fetch.
  destruct remote as [| |ks]; try exact B.
  destruct (find_key kid ks) as [k|]; [|exact B].
  apply insert_bounded; assumption.
Qed.

Lemma resolveKey_bounded (cfg : Config) (now : Z) (remote : JwksResponse)
    (kid : string) (c : KeyCache) :
  (0 < cacheMaxEntries cfg)%nat ->
  (length c <= cacheMaxEntries cfg)%nat ->
  (length (snd (fst (resolveKey cfg now remote kid c))) <= cacheMaxEntries cfg)%nat.
Proof.
  intros P B. unfold resolveKey.
  destruct (lookup kid c) as [e|]; [destruct (stale cfg now e)|];
    try exact B; apply fetch_bounded; assumption.
Qed.

Lemma run_bounded (cfg : Config) (ls : list Lookup) (c : KeyCache) :
  (0 < cacheMaxEntries cfg)%nat ->
  (length c <= cacheMaxEntries cfg)%nat ->
  (length (run cfg ls c) <= cacheMaxEntries cfg)%nat.
Proof.
  intro P. revert c. induction ls as [|l ls IH]; intros c B; [exact B|].
  unfold run. simpl. apply IH. apply resolveKey_bounded; assumption.
Qed.

Lemma insert_at_capacity (cfg : Config) (e : Entry) (c : KeyCache) :
  length c = cacheMaxEntries cfg ->
  lookup (keyId (e_key e)) c = None ->
  insert cfg e c = (tl c ++ [e])%list.
Proof.
  intros Full Un. unfold insert. rewrite (unbind_unbound _ _ Un).
  unfold evict. rewrite Full, Nat.leb_refl. reflexivity.
Qed.

Lemma fetch_fetches (cfg : Config) (now : Z) (remote : JwksResponse)
    (kid : string) (c : KeyCache) :
  snd (fetch cfg now remote kid c) = true.
Proof.
  unfold fetch. destruct remote as [| |ks]; try reflexivity.
  destruct (find_key kid ks); reflexivity.
Qed.

Lemma served_is_fresh (cfg : Config) (now : Z) (remote : JwksResponse)
    (kid : string) (c c' : KeyCache) (k : SigningKey) :
  resolveKey cfg now remote kid c = (Resolved k, c', false) ->
  c' = c /\ exists e, lookup kid c = Some e /\ e_key e = k
                      /\ (now - fetchedAt e <= cacheMaxAge cfg)%Z.
Proof.
  unfold resolveKey. intro H.
  assert (F : forall r, fetch cfg now remote kid c <> (r, false)).
  { intros r E. pose proof (fetch_fetches cfg now remote kid c) as T.
    rewrite E in T. discriminate T. }
  destruct (lookup kid c) as [e|]; [|exfalso; exact (F _ H)].
  destruct (stale cfg now e) eqn:S; [exfalso; exact (F _ H)|].
  injection H as <- <-. split; [reflexivity|].
  exists e. repeat split. unfold stale in S. apply Z.ltb_ge in S. exact S.
Qed.

Lemma upto_later (t t' : Z) (c : KeyCache) :
  (t <= t')%Z -> upto t c -> upto t' c.
Proof.
  intros Le U. unfold upto in *. rewrite Forall_forall in *.
  intros e He. specialize (U e He). simpl in U. lia.
Qed.

Lemma upto_filter (t : Z) (f : Entry -> bool) (c : KeyCache) :
  upto t c -> upto t (filter f c).
Proof.
  unfold upto. rewrite !Forall_forall. intros U e He.
  apply filter_In in He. apply U. tauto.
Qed.

Lemma upto_tl (t : Z) (c : KeyCache) : upto t c -> upto t (tl c).
Proof.
  destruct c as [|e c]; [trivial|]. intro U. inversion U. assumption.
Qed.

Lemma ordered_filter (f : Entry -> bool) (c : KeyCache) :
  ordered c -> ordered (filter f c).
Proof.
  unfold ordered. induction c as [|e c IH]; intro O; [constructor|].
  inversion O as [|? ? Oc He]; subst. simpl.
  destruct (f e); [|apply IH; exact Oc].
  constructor; [apply IH; exact Oc|].
  rewrite Forall_forall in *. intros x Hx. apply filter_In in Hx.
  apply He. tauto.
Qed.

Lemma ordered_tl (c : KeyCache) : ordered c -> ordered (tl c).
Proof.
  destruct c as [|e c]; [trivial|]. intro O. inversion O. assumption.
Qed.

Lemma ordered_snoc (c : KeyCache) (e : Entry) :
  ordered c -> upto (fetchedAt e) c -> ordered (c ++ [e])%list.
Proof.
  unfold ordered, upto. induction c as [|a c IH]; intros O U.
  - simpl. constructor; constructor.
  - inversion O as [|? ? Oc Ha]; subst. inversion U as [|? ? Ua Uc]; subst.
    simpl. constructor; [apply IH; assumption|].
    apply Forall_app. split; [exact Ha|]. constructor; [exact Ua|constructor].
Qed.

Lemma evict_keeps (cfg : Config) (t : Z) (c : KeyCache) :
  ordered c -> upto t c -> ordered (evict cfg c) /\ upto t (evict cfg c).
Proof.
  intros O U. unfold evict.
  destruct (cacheMaxEntries cfg <=? length c)%nat; [|auto].
  split; [apply ordered_tl|apply upto_tl]; assumption.
Qed.

Lemma insert_ordered (cfg : Config) (k : SigningKey) (t : Z) (c : KeyCache) :
  ordered c -> upto t c ->
  ordered (insert cfg {| e_key := k; fetchedAt := t |} c)
  /\ upto t (insert cfg {| e_key := k; fetchedAt := t |} c).
Proof.
  intros O U. unfold insert. cbn [e_key].
  destruct (evict_keeps cfg t (unbind (keyId k) c)) as [O' U'].
  { apply ordered_filter. exact O. }
  { apply upto_filter. exact U. }
  split.
  - apply ordered_snoc; assumption.
  - apply Forall_app. split; [exact U'|].
    constructor; [simpl; lia|constructor].
Qed.

Lemma resolveKey_ordered (cfg : Config) (t : Z) (remote : JwksResponse)
    (kid : string) (c : KeyCache) :
  ordered c -> upto t c ->
  ordered (snd (fst (resolveKey cfg t remote kid c)))
  /\ upto t (snd (fst (resolveKey cfg t remote kid c))).
Proof.
  intros O U.
  assert (F : ordered (snd (fst (fetch cfg t remote kid c)))
              /\ upto t (snd (fst (fetch cfg t remote kid c)))).
  { unfold fetch. destruct remote as [| |ks]; auto.
    destruct (find_key kid ks) as [k|]; auto.
    apply insert_ordered; assumption. }
  unfold resolveKey.
  destruct (lookup kid c) as [e|]; [destruct (stale cfg t e)|]; auto.
Qed.

Lemma run_ordered (cfg : Config) (ls : list Lookup) (t : Z) (c : KeyCache) :
  chronological t ls -> ordered c -> upto t c -> ordered (run cfg ls c).
Proof.
  revert t c. induction ls as [|l ls IH]; intros t c Ch O U; [exact O|].
  destruct Ch as [Le Ch]. unfold run. simpl.
  destruct (resolveKey_ordered cfg (l_now l) (l_remote l) (l_kid l) c O
              (upto_later t (l_now l) c Le U)) as [O' U'].
  exact (IH (l_now l) _ Ch O' U').
Qed.

End KeyResolverFacts.

(** C8.  For a key cache with room for at least one entry:
    - after any sequence of lookups, from the empty cache on, the cache
      holds at most [cacheMaxEntries] entries, and a lookup never takes a
      cache within the bound beyond it;
    - the cache binds no key identifier twice; storing a key in a full
      cache leaves it full, so exactly one earlier entry goes, and when
      the key was not bound yet that entry is the first one and the
      others stay in place;
    - with the lookups in the order of the clock the entries are in the
      order of their timestamps, so the first entry is the oldest;
    - a lookup that finds an entry older than [cacheMaxAge] goes to the
      network and answers what the fetch answers; a key answered without
      the network comes from an entry no older than [cacheMaxAge], and
      the cache is left as it was. *)
Theorem cache_bounded_and_fresh (cfg : KeyResolver.Config) :
  (0 < KeyResolver.cacheMaxEntries cfg)%nat ->
  (forall ls,
     (length (KeyResolver.run cfg ls []) <= KeyResolver.cacheMaxEntries cfg)%nat)
  /\ (forall t remote kid c,
        (length c <= KeyResolver.cacheMaxEntries cfg)%nat ->
        (length (snd (fst (KeyResolver.resolveKey cfg t remote kid c)))
           <= KeyResolver.cacheMaxEntries cfg)%nat)
  /\ (forall ls, KeyResolver.distinct (KeyResolver.run cfg ls []))
  /\ (forall e c,
        length c = KeyResolver.cacheMaxEntries cfg ->
        KeyResolver.distinct c ->
        length (KeyResolver.insert cfg e c) = KeyResolver.cacheMaxEntries cfg
        /\ (KeyResolver.lookup (keyId (KeyResolver.e_key e)) c = None ->
            KeyResolver.insert cfg e c = (tl c ++ [e])%list))
  /\ (forall t ls,
        KeyResolver.chronological t ls ->
        KeyResolver.ordered (KeyResolver.run cfg ls []))
  /\ (forall o rest,
        KeyResolver.ordered (o :: rest) ->
        Forall (fun e => (KeyResolver.fetchedAt o <= KeyResolver.fetchedAt e)%Z)
               rest)
  /\ (forall t remote kid c e,
        KeyResolver.lookup kid c = Some e ->
        (KeyResolver.cacheMaxAge cfg < t - KeyResolver.fetchedAt e)%Z ->
        KeyResolver.resolveKey cfg t remote kid c
          = KeyResolver.fetch cfg t remote kid c
        /\ snd (KeyResolver.resolveKey cfg t remote kid c) = true)
  /\ (forall t remote kid c c' k,
        KeyResolver.resolveKey cfg t remote kid c
          = (KeyResolver.Resolved k, c', false) ->
        c' = c
        /\ exists e, KeyResolver.lookup kid c = Some e
                     /\ KeyResolver.e_key e = k
                     /\ (t - KeyResolver.fetchedAt e
                           <= KeyResolver.cacheMaxAge cfg)%Z).
Proof.
  intro P. repeat apply conj.
  - intro ls. apply KeyResolverFacts.run_bounded; [exact P|simpl; lia].
  - intros t remote kid c B.
    apply KeyResolverFacts.resolveKey_bounded; assumption.
  - intro ls. apply KeyResolverFacts.run_distinct. constructor.
  - intros e c Full D. split.
    + apply KeyResolverFacts.insert_full; assumption.
    + intro Un. exact (KeyResolverFacts.insert_at_capacity cfg e c Full Un).
  - intros t ls Ch.
    apply (KeyResolverFacts.run_ordered cfg ls t []);
      [exact Ch|constructor|constructor].
  - intros o rest O. inversion O. assumption.
  - intros t remote kid c e Lk Old.
    assert (E : KeyResolver.resolveKey cfg t remote kid c
                = KeyResolver.fetch cfg t remote kid c).
    { unfold KeyResolver.resolveKey. rewrite Lk.
      unfold KeyResolver.stale.
      destruct (Z.ltb_spec (KeyResolver.cacheMaxAge cfg)
                  (t - KeyResolver.fetchedAt e)); [reflexivity|lia]. }
    split; [exact E|]. rewrite E. apply KeyResolverFacts.fetch_fetches.
  - intros t remote kid c c' k H.
    exact (KeyResolverFacts.served_is_fresh cfg t remote kid c c' k H).
Qed.

Lemma fullCache_distinct : KeyResolver.distinct TestDouble.fullCache.
Proof.
  unfold KeyResolver.distinct. simpl.
  repeat (constructor; [simpl; intuition discriminate|]). constructor.
Qed.

Lemma cache_bounded_and_fresh_witness :
  (length (KeyResolver.run TestDouble.cfg0
             [TestDouble.ask 10 "a"; TestDouble.ask 20 "b";
              TestDouble.ask 30 "c"; TestDouble.ask 40 "d";
              TestDouble.ask 50 "e"; TestDouble.ask 60 "f";
              TestDouble.ask 70 "a"] []) <= 5)%nat
  /\ (length (KeyResolver.insert TestDouble.cfg0 (TestDouble.entry "f" 60)
                TestDouble.fullCache) = 5%nat
      /\ KeyResolver.insert TestDouble.cfg0 (TestDouble.entry "f" 60)
           TestDouble.fullCache
         = (tl TestDouble.fullCache ++ [TestDouble.entry "f" 60])%list)
  /\ (KeyResolver.resolveKey TestDouble.cfg0 600011
        (KeyResolver.KeySet [TestDouble.key "a"]) "a" TestDouble.fullCache
      = KeyResolver.fetch TestDouble.cfg0 600011
          (KeyResolver.KeySet [TestDouble.key "a"]) "a" TestDouble.fullCache
      /\ snd (KeyResolver.resolveKey TestDouble.cfg0 600011
                (KeyResolver.KeySet [TestDouble.key "a"]) "a"
                TestDouble.fullCache) = true).
Proof.
  destruct (cache_bounded_and_fresh TestDouble.cfg0 (Nat.lt_0_succ 4))
    as [Bound [_ [_ [Evict [_ [_ [Stale _]]]]]]].
  split; [apply Bound|split].
  - destruct (Evict (TestDouble.entry "f" 60) TestDouble.fullCache eq_refl
                fullCache_distinct) as [Full First].
    split; [exact Full|apply First; reflexivity].
  - apply (Stale 600011%Z (KeyResolver.KeySet [TestDouble.key "a"]) "a"
             TestDouble.fullCache (TestDouble.entry "a" 10));
      reflexivity.
Defined.

(** ** The pipeline on the test double *)

(** A verified token with the realm role "Doctor" passes the doctor gate:
    the identity keeps "Doctor", the gate compares in lower case. *)
Example doctor_end_to_end {host : Host} :
  let st := TestDouble.auth (Some "Bearer good") in
  passed_on st
  /\ option_map roles (user (st_req st)) = Some ["Doctor"]
  /\ passed_on (handle requireDoctor (st_sys st) (st_req st)).
Proof.
  cbv zeta. split; [split; reflexivity|]. split; [reflexivity|].
  unfold requireDoctor.
  rewrite (requireRole_identity
             (st_sys (TestDouble.auth (Some "Bearer good")))
             (st_req (TestDouble.auth (Some "Bearer good")))
             (identityOf (payload TestDouble.good)) ["doctor"] eq_refl).
  rewrite (hasRole_ascii (identityOf (payload TestDouble.good)) ["doctor"]
             eq_refl eq_refl).
  split; reflexivity.
Qed.

(** Resolving the same key identifier twice within the max age fetches
    once. *)
Example second_lookup_is_cached :
  let '(_, s1) := getSigningKey TestDouble.env0 "k1" TestDouble.sys0 in
  let '(r, s2) := getSigningKey TestDouble.env0 "k1" s1 in
  r = inr TestDouble.key1 /\ fetches s1 = 1%nat /\ fetches s2 = 1%nat.
Proof. repeat split. Qed.

(** * Further properties of src/middleware/auth.js *)

(** ** The token handed to [jwt.verify] *)

Lemma split_pieces_spaceless (h w : string) :
  In w (Js.split " " h) -> spaceless w = true.
Proof.
  revert w. induction h as [|c h IH]; intros w H.
  - destruct H as [<-|[]]. reflexivity.
  - simpl in H. destruct (Ascii.eqb c " ") eqn:E.
    + destruct H as [<-|H]; [reflexivity|apply IH; exact H].
    + destruct (Js.split " " h) as [|w0 ws].
      * destruct H as [<-|[]]. simpl. rewrite E. reflexivity.
      * destruct H as [<-|H].
        -- simpl. rewrite E. simpl. apply IH. left. reflexivity.
        -- apply IH. right. exact H.
Qed.

Lemma presents_field (req : Request) (tok : string) :
  presents req tok ->
  exists h, authorization req = Some h /\ secondField h = Some tok.
Proof.
  intros [H Hne]. unfold bearerToken in H.
  destruct (authorization req) as [h|]; [|discriminate].
  exists h. split; [reflexivity|].
  destruct (Js.truthy (Some h)) eqn:T; [exact H|].
  injection H as ->. destruct tok; [congruence|discriminate].
Qed.

Lemma verify_calls (L : JwtLibrary) (env : ProcessEnv) (s : Sys)
    (req : Request) (tok : string) :
  presents req tok ->
  st_verify (handle (authenticateToken L env) s req) = [(tok, jwtOptions env)].
Proof.
  intro P. rewrite (authenticate_token L env s req tok P). cbv zeta.
  destruct (jwt_verify L tok (getKey env) (jwtOptions env) s) as [[e|d] s'];
    reflexivity.
Qed.

(** X1.  Whatever the Authorization header, a token that
    [authenticateToken] hands to [jwt.verify] is the header's second
    space-separated field, is not empty and has no space in it, and it is
    handed over together with [jwtOptions]. *)
Theorem verified_token_shape (L : JwtLibrary) (env : ProcessEnv) (s : Sys)
    (req : Request) (tok : string) (opts : JwtOptions) :
  In (tok, opts) (st_verify (handle (authenticateToken L env) s req)) ->
  tok <> "" /\ spaceless tok = true /\ opts = jwtOptions env
  /\ exists h, authorization req = Some h /\ secondField h = Some tok.
Proof.
  intro H. destruct (token_or_not req) as [N|[t P]].
  - rewrite (authenticate_no_token L env s req N) in H. destruct H.
  - rewrite (verify_calls L env s req t P) in H.
    destruct H as [H|[]]. injection H as <- <-.
    destruct (presents_field req t P) as [h [Hh Hf]].
    split; [exact (proj2 P)|]. split; [|split; [reflexivity|]].
    + apply (split_pieces_spaceless h). unfold secondField in Hf.
      apply nth_error_In in Hf. exact Hf.
    + exists h. auto.
Qed.

Lemma verified_token_shape_witness :
  "good" <> "" /\ spaceless "good" = true
  /\ jwtOptions TestDouble.env0 = jwtOptions TestDouble.env0
  /\ exists h,
       authorization (TestDouble.request (Some "Token good extra")) = Some h
       /\ secondField h = Some "good".
Proof.
  apply (verified_token_shape TestDouble.lib TestDouble.env0 TestDouble.sys0
           (TestDouble.request (Some "Token good extra")) "good"
           (jwtOptions TestDouble.env0)).
  left. reflexivity.
Defined.

(** ** Only the header counts *)

(** X2.  The outcome of [authenticateToken] depends on the request's
    Authorization header only: two requests with the same header, on the
    same process state, get the same response, the same calls to
    [jwt.verify] and the same process state, and when they are passed on
    they carry the same identity, whatever [req.user] held before. *)
Theorem authenticate_header_only (L : JwtLibrary) (env : ProcessEnv) (s : Sys)
    (req1 req2 : Request) :
  authorization req1 = authorization req2 ->
  let st1 := handle (authenticateToken L env) s req1 in
  let st2 := handle (authenticateToken L env) s req2 in
  st_sys st1 = st_sys st2
  /\ st_res st1 = st_res st2
  /\ st_next st1 = st_next st2
  /\ st_verify st1 = st_verify st2
  /\ (st_next st1 = 1%nat -> st_req st1 = st_req st2).
Proof.
  intro E. cbv zeta. destruct (token_or_not req1) as [N|[tok P]].
  - assert (N2 : lacks_token req2).
    { unfold lacks_token in *. rewrite <- E. exact N. }
    rewrite (authenticate_no_token L env s req1 N).
    rewrite (authenticate_no_token L env s req2 N2).
    repeat split. discriminate.
  - assert (P2 : presents req2 tok).
    { unfold presents in *. rewrite <- E. exact P. }
    destruct (jwt_verify L tok (getKey env) (jwtOptions env) s)
      as [[e|d] s'] eqn:V.
    + rewrite (authenticate_invalid L env s req1 tok e s' P V).
      rewrite (authenticate_invalid L env s req2 tok e s' P2 V).
      repeat split. discriminate.
    + rewrite (authenticate_valid L env s req1 tok d s' P V).
      rewrite (authenticate_valid L env s req2 tok d s' P2 V).
      repeat split. intros _. cbn [st_req]. rewrite E. reflexivity.
Qed.

Lemma authenticate_header_only_witness :
  st_sys (handle (authenticateToken TestDouble.lib TestDouble.env0)
            TestDouble.sys0 (TestDouble.request (Some "Bearer good")))
  = st_sys (handle (authenticateToken TestDouble.lib TestDouble.env0)
              TestDouble.sys0 (TestDouble.as_user ["admin"]))
  /\ st_res (handle (authenticateToken TestDouble.lib TestDouble.env0)
               TestDouble.sys0 (TestDouble.request (Some "Bearer good")))
     = st_res (handle (authenticateToken TestDouble.lib TestDouble.env0)
                 TestDouble.sys0 (TestDouble.as_user ["admin"]))
  /\ st_next (handle (authenticateToken TestDouble.lib TestDouble.env0)
                TestDouble.sys0 (TestDouble.request (Some "Bearer good")))
     = st_next (handle (authenticateToken TestDouble.lib TestDouble.env0)
                  TestDouble.sys0 (TestDouble.as_user ["admin"]))
  /\ st_verify (handle (authenticateToken TestDouble.lib TestDouble.env0)
                  TestDouble.sys0 (TestDouble.request (Some "Bearer good")))
     = st_verify (handle (authenticateToken TestDouble.lib TestDouble.env0)
                    TestDouble.sys0 (TestDouble.as_user ["admin"]))
  /\ (st_next (handle (authenticateToken TestDouble.lib TestDouble.env0)
                 TestDouble.sys0 (TestDouble.request (Some "Bearer good")))
      = 1%nat ->
      st_req (handle (authenticateToken TestDouble.lib TestDouble.env0)
                TestDouble.sys0 (TestDouble.request (Some "Bearer good")))
      = st_req (handle (authenticateToken TestDouble.lib TestDouble.env0)
                  TestDouble.sys0 (TestDouble.as_user ["admin"]))).
Proof.
  apply (authenticate_header_only TestDouble.lib TestDouble.env0 TestDouble.sys0
           (TestDouble.request (Some "Bearer good"))
           (TestDouble.as_user ["admin"])).
  reflexivity.
Defined.

(** ** Requests without a token stay local *)

(** X3.  A request without a token never reaches the key resolver: the
    key cache, the number of fetches, the clock and the endpoint are as
    before, and the console gets the one line "No token provided". *)
Theorem tokenless_request_is_local (L : JwtLibrary) (env : ProcessEnv)
    (s : Sys) (req : Request) :
  lacks_token req ->
  let s' := st_sys (handle (authenticateToken L env) s req) in
  keyCache s' = keyCache s
  /\ fetches s' = fetches s
  /\ now s' = now s
  /\ endpoint s' = endpoint s
  /\ console s' = (console s ++ [(Stdout, [JStr "No token provided"])])%list.
Proof.
  intro N. cbv zeta. rewrite (authenticate_no_token L env s req N).
  repeat split.
Qed.

Lemma tokenless_request_is_local_witness :
  keyCache (st_sys (TestDouble.auth (Some "Bearer "))) = keyCache TestDouble.sys0
  /\ fetches (st_sys (TestDouble.auth (Some "Bearer "))) = fetches TestDouble.sys0
  /\ now (st_sys (TestDouble.auth (Some "Bearer "))) = now TestDouble.sys0
  /\ endpoint (st_sys (TestDouble.auth (Some "Bearer ")))
     = endpoint TestDouble.sys0
  /\ console (st_sys (TestDouble.auth (Some "Bearer ")))
     = (console TestDouble.sys0 ++ [(Stdout, [JStr "No token provided"])])%list.
Proof.
  apply (tokenless_request_is_local TestDouble.lib TestDouble.env0
           TestDouble.sys0 (TestDouble.request (Some "Bearer "))).
  right. right. reflexivity.
Defined.

(** ** Authentication followed by a role gate *)

Lemma gate_passes_iff {host : Host} (s : Sys) (req : Request) (u : Identity)
    (allowed : list string) :
  user req = Some u ->
  (passed_on (handle (requireRole allowed) s req) <-> hasRole u allowed = true).
Proof.
  intro H. rewrite (requireRole_identity s req u allowed H).
  destruct (hasRole u allowed); split; try reflexivity.
  - intros _. split; reflexivity.
  - intros [N _]. discriminate N.
  - discriminate.
Qed.

Lemma gate_denies_iff {host : Host} (s : Sys) (req : Request) (u : Identity)
    (allowed : list string) :
  user req = Some u ->
  (responded (handle (requireRole allowed) s req) 403
     (InsufficientRole allowed (map toLowerCase (roles u)))
   <-> hasRole u allowed = false).
Proof.
  intro H. rewrite (requireRole_identity s req u allowed H).
  destruct (hasRole u allowed); split; try reflexivity.
  - intros [N _]. discriminate N.
  - discriminate.
  - intros _. split; reflexivity.
Qed.

Lemma hasRole_false {host : Host} (u : Identity) (allowed : list string) :
  hasRole u allowed = false <-> ~ shares_role (roles u) allowed.
Proof.
  rewrite <- hasRole_shares. destruct (hasRole u allowed); split; congruence.
Qed.

(** X4.  After [authenticateToken] has passed a request on, a
    [requireRole] gate run on what it left passes exactly when a realm
    role of the verified payload equals a required role up to letter
    case, and answers 403 with the payload's roles in lower case exactly
    when none does; [requireAuthenticated] passes it in every case. *)
Theorem authenticated_then_gate {host : Host} (L : JwtLibrary) (env : ProcessEnv)
    (s s' : Sys) (req : Request) (tok : string) (d : Decoded)
    (allowed : list string) :
  presents req tok ->
  jwt_verify L tok (getKey env) (jwtOptions env) s = (inr d, s') ->
  let st := handle (authenticateToken L env) s req in
  (passed_on (handle (requireRole allowed) (st_sys st) (st_req st))
     <-> shares_role (realmRoleList d) allowed)
  /\ (responded (handle (requireRole allowed) (st_sys st) (st_req st)) 403
        (InsufficientRole allowed (map toLowerCase (realmRoleList d)))
      <-> ~ shares_role (realmRoleList d) allowed)
  /\ passed_on (handle requireAuthenticated (st_sys st) (st_req st)).
Proof.
  intros P V. cbv zeta.
  rewrite (authenticate_valid L env s req tok d s' P V).
  cbn [st_sys st_req].
  assert (R : roles (identityOf d) = realmRoleList d).
  { unfold identityOf, realmRoleList, realmRoles. cbn [roles].
    destruct (realm_access d); reflexivity. }
  rewrite <- R. split; [|split].
  - rewrite <- hasRole_shares. apply gate_passes_iff. reflexivity.
  - rewrite <- hasRole_false. apply gate_denies_iff. reflexivity.
  - rewrite requireAuthenticated_run. split; reflexivity.
Qed.

Lemma authenticated_then_gate_witness :
  (passed_on (handle (requireRole (host := asciiHost) ["doctor"])
                (st_sys (TestDouble.auth (Some "Bearer good")))
                (st_req (TestDouble.auth (Some "Bearer good"))))
     <-> shares_role (host := asciiHost) (realmRoleList (payload TestDouble.good)) ["doctor"])
  /\ (responded (handle (requireRole (host := asciiHost) ["doctor"])
                   (st_sys (TestDouble.auth (Some "Bearer good")))
                   (st_req (TestDouble.auth (Some "Bearer good")))) 403
        (InsufficientRole ["doctor"]
           (map (toLowerCase (Host := asciiHost)) (realmRoleList (payload TestDouble.good))))
      <-> ~ shares_role (host := asciiHost) (realmRoleList (payload TestDouble.good)) ["doctor"])
  /\ passed_on (handle requireAuthenticated
                  (st_sys (TestDouble.auth (Some "Bearer good")))
                  (st_req (TestDouble.auth (Some "Bearer good")))).
Proof.
  refine (authenticated_then_gate (host := asciiHost) TestDouble.lib TestDouble.env0
            TestDouble.sys0 _ (TestDouble.request (Some "Bearer good")) "good"
            (payload TestDouble.good) ["doctor"] _ _).
  - split; [reflexivity|discriminate].
  - reflexivity.
Defined.

(** X5.  A verified token without realm roles (no [realm_access], no
    [roles] in it, or an empty list) is passed on by [authenticateToken]
    and by [requireAuthenticated], and is answered 403 by every
    [requireRole] gate, with an empty [userRoles] in the body. *)
Theorem roleless_token_denied {host : Host} (L : JwtLibrary) (env : ProcessEnv)
    (s s' : Sys) (req : Request) (tok : string) (d : Decoded)
    (allowed : list string) :
  presents req tok ->
  jwt_verify L tok (getKey env) (jwtOptions env) s = (inr d, s') ->
  realmRoles d = None \/ realmRoles d = Some [] ->
  let st := handle (authenticateToken L env) s req in
  passed_on st
  /\ passed_on (handle requireAuthenticated (st_sys st) (st_req st))
  /\ responded (handle (requireRole allowed) (st_sys st) (st_req st)) 403
       (InsufficientRole allowed []).
Proof.
  intros P V E. cbv zeta.
  rewrite (authenticate_valid L env s req tok d s' P V).
  cbn [st_sys st_req].
  assert (R : roles (identityOf d) = []).
  { unfold identityOf, realmRoles in *. cbn [roles].
    destruct (realm_access d) as [ra|]; [|reflexivity].
    destruct E as [E|E]; rewrite E; reflexivity. }
  split; [split; reflexivity|]. split.
  - rewrite requireAuthenticated_run. split; reflexivity.
  - rewrite (requireRole_identity _
               {| authorization := authorization req;
                  user := Some (identityOf d) |}
               (identityOf d) allowed eq_refl).
    assert (H : hasRole (identityOf d) allowed = false).
    { apply hasRole_false. rewrite R. intros [r [q [[] _]]]. }
    rewrite H, R. split; reflexivity.
Qed.

Lemma roleless_token_denied_witness :
  passed_on (TestDouble.auth (Some "Bearer noroles"))
  /\ passed_on (handle requireAuthenticated
                  (st_sys (TestDouble.auth (Some "Bearer noroles")))
                  (st_req (TestDouble.auth (Some "Bearer noroles"))))
  /\ responded (handle (requireRole (host := asciiHost) ["doctor"; "staff"])
                  (st_sys (TestDouble.auth (Some "Bearer noroles")))
                  (st_req (TestDouble.auth (Some "Bearer noroles")))) 403
       (InsufficientRole ["doctor"; "staff"] []).
Proof.
  refine (roleless_token_denied (host := asciiHost) TestDouble.lib TestDouble.env0
            TestDouble.sys0 _ (TestDouble.request (Some "Bearer noroles"))
            "noroles" (payload TestDouble.noroles) ["doctor"; "staff"] _ _ _).
  - split; [reflexivity|discriminate].
  - reflexivity.
  - left. reflexivity.
Defined.

(** ** The gates compared *)

Lemma shares_role_incl {host : Host} (rs allowed allowed' : list string) :
  incl allowed allowed' -> shares_role rs allowed -> shares_role rs allowed'.
Proof.
  intros I [r [q [Hr [Hq E]]]]. exists r, q. auto.
Qed.

(** X6.  A request that a [requireRole] gate passes is passed by every
    gate whose role list contains that gate's roles, and by
    [requireAuthenticated]; so what [requireDoctor] passes,
    [requireDoctorOrStaff] passes too. *)
Theorem gates_monotone {host : Host} (s : Sys) (req : Request) (allowed allowed' : list string) :
  incl allowed allowed' ->
  passed_on (handle (requireRole allowed) s req) ->
  passed_on (handle (requireRole allowed') s req)
  /\ passed_on (handle requireAuthenticated s req).
Proof.
  intros I Pass. destruct (user req) as [u|] eqn:U.
  - split.
    + apply (gate_passes_iff s req u allowed' U). apply hasRole_shares.
      apply (shares_role_incl _ allowed); [exact I|].
      apply hasRole_shares. apply (gate_passes_iff s req u allowed U).
      exact Pass.
    + rewrite requireAuthenticated_run, U. split; reflexivity.
  - rewrite (requireRole_anonymous s req allowed U) in Pass.
    destruct Pass as [N _]. discriminate N.
Qed.

Lemma gates_monotone_witness :
  passed_on (handle (requireDoctorOrStaff (host := asciiHost)) TestDouble.sys0
               (TestDouble.as_user ["Doctor"]))
  /\ passed_on (handle requireAuthenticated TestDouble.sys0
                  (TestDouble.as_user ["Doctor"])).
Proof.
  apply (gates_monotone (host := asciiHost) TestDouble.sys0 (TestDouble.as_user ["Doctor"])
           ["doctor"] ["doctor"; "staff"]).
  - intros x [<-|[]]. left. reflexivity.
  - split; reflexivity.
Defined.

(** X7.  [requireDoctor] passes an identity exactly when one of its roles
    is "doctor" in some letter case; [requireDoctorOrStaff] exactly when
    one of its roles is "doctor" or "staff" in some letter case. *)
Theorem exported_gates {host : Host} (s : Sys) (h : option string) (u : Identity) :
  (passed_on (handle requireDoctor s (withUser h u))
     <-> exists r, In r (roles u) /\ toLowerCase r = "doctor")
  /\ (passed_on (handle requireDoctorOrStaff s (withUser h u))
        <-> exists r, In r (roles u)
              /\ (toLowerCase r = "doctor" \/ toLowerCase r = "staff")).
Proof.
  assert (Ld : toLowerCase "doctor" = "doctor")
    by (rewrite (toLowerCase_ascii "doctor" eq_refl); reflexivity).
  assert (Ls : toLowerCase "staff" = "staff")
    by (rewrite (toLowerCase_ascii "staff" eq_refl); reflexivity).
  unfold requireDoctor, requireDoctorOrStaff. split.
  - rewrite (gate_passes_iff s (withUser h u) u ["doctor"] eq_refl).
    rewrite hasRole_shares. split.
    + intros [r [q [Hr [[<-|[]] E]]]]. exists r. rewrite Ld in E. auto.
    + intros [r [Hr E]]. exists r, "doctor". rewrite Ld. simpl. auto.
  - rewrite (gate_passes_iff s (withUser h u) u ["doctor"; "staff"] eq_refl).
    rewrite hasRole_shares. split.
    + intros [r [q [Hr [[<-|[<-|[]]] E]]]]; exists r;
        rewrite ?Ld, ?Ls in E; auto.
    + intros [r [Hr [E|E]]];
        [exists r, "doctor"; rewrite Ld|exists r, "staff"; rewrite Ls];
        simpl; auto.
Qed.

Lemma exported_gates_witness :
  (passed_on (handle (requireDoctor (host := asciiHost)) TestDouble.sys0
                (withUser None (Build_Identity None None None ["DOCTOR"])))
     <-> exists r, In r ["DOCTOR"]
           /\ toLowerCase (Host := asciiHost) r = "doctor")
  /\ (passed_on (handle (requireDoctorOrStaff (host := asciiHost))
                   TestDouble.sys0
                   (withUser None (Build_Identity None None None ["DOCTOR"])))
        <-> exists r, In r ["DOCTOR"]
              /\ (toLowerCase (Host := asciiHost) r = "doctor"
                  \/ toLowerCase (Host := asciiHost) r = "staff")).
Proof.
  exact (exported_gates (host := asciiHost) TestDouble.sys0 None
           (Build_Identity None None None ["DOCTOR"])).
Defined.

(** X8.  A gate made with an empty role list answers 403 to every
    identity, and an identity without roles is answered 403 by every
    gate. *)
Theorem empty_role_lists {host : Host} (s : Sys) (h : option string) (u : Identity)
    (allowed : list string) :
  responded (handle (requireRole []) s (withUser h u)) 403
    (InsufficientRole [] (map toLowerCase (roles u)))
  /\ (forall i n e,
        responded
          (handle (requireRole allowed) s
             (withUser h {| id := i; username := n; u_email := e; roles := [] |}))
          403 (InsufficientRole allowed [])).
Proof.
  split.
  - apply (gate_denies_iff s (withUser h u) u [] eq_refl). reflexivity.
  - intros i n e.
    apply (gate_denies_iff s
             (withUser h {| id := i; username := n; u_email := e; roles := [] |})
             {| id := i; username := n; u_email := e; roles := [] |}
             allowed eq_refl).
    apply hasRole_false. intros [r [q [[] _]]].
Qed.

Lemma existsb_map_comp {A B} (f : B -> bool) (g : A -> B) (l : list A) :
  existsb f (map g l) = existsb (fun x => f (g x)) l.
Proof.
  induction l as [|a l IH]; [reflexivity|]. simpl. rewrite IH. reflexivity.
Qed.

(** X9.  The decision of a [requireRole] gate depends on the identity's
    roles and on the required roles only through their lower-case forms:
    two identities whose roles agree in lower case, against two role
    lists that agree in lower case, are both passed or both answered
    403; against the same role list they get the same response. *)
Theorem gate_ignores_case {host : Host} (s : Sys) (h : option string) (u u' : Identity)
    (allowed allowed' : list string) :
  map toLowerCase (roles u) = map toLowerCase (roles u') ->
  map toLowerCase allowed = map toLowerCase allowed' ->
  (passed_on (handle (requireRole allowed) s (withUser h u))
   <-> passed_on (handle (requireRole allowed') s (withUser h u')))
  /\ st_res (handle (requireRole allowed) s (withUser h u))
       = st_res (handle (requireRole allowed) s (withUser h u')).
Proof.
  intros Er Ea.
  assert (H : forall al, hasRole u al = hasRole u' al).
  { intro al. unfold hasRole. rewrite Er. reflexivity. }
  assert (H' : hasRole u' allowed = hasRole u' allowed').
  { unfold hasRole, Js.some.
    rewrite <- (existsb_map_comp
                  (Js.includes (map toLowerCase (roles u'))) toLowerCase).
    rewrite <- (existsb_map_comp
                  (Js.includes (map toLowerCase (roles u'))) toLowerCase
                  allowed').
    rewrite Ea. reflexivity. }
  split.
  - rewrite (gate_passes_iff s (withUser h u) u allowed eq_refl).
    rewrite (gate_passes_iff s (withUser h u') u' allowed' eq_refl).
    rewrite H, H'. tauto.
  - rewrite (requireRole_identity s (withUser h u) u allowed eq_refl).
    rewrite (requireRole_identity s (withUser h u') u' allowed eq_refl).
    rewrite (H allowed), Er. destruct (hasRole u' allowed); reflexivity.
Qed.

Lemma gate_ignores_case_witness :
  (passed_on (handle (requireRole (host := asciiHost) ["doctor"]) TestDouble.sys0
                (withUser None {| id := None; username := None;
                                  u_email := None; roles := ["DOCTOR"] |}))
   <-> passed_on (handle (requireRole (host := asciiHost) ["Doctor"]) TestDouble.sys0
                    (withUser None {| id := None; username := None;
                                      u_email := None; roles := ["doctor"] |})))
  /\ st_res (handle (requireRole (host := asciiHost) ["doctor"]) TestDouble.sys0
               (withUser None {| id := None; username := None;
                                 u_email := None; roles := ["DOCTOR"] |}))
     = st_res (handle (requireRole (host := asciiHost) ["doctor"]) TestDouble.sys0
                 (withUser None {| id := None; username := None;
                                   u_email := None; roles := ["doctor"] |})).
Proof.
  apply (gate_ignores_case (host := asciiHost) TestDouble.sys0 None
           {| id := None; username := None; u_email := None;
              roles := ["DOCTOR"] |}
           {| id := None; username := None; u_email := None;
              roles := ["doctor"] |}
           ["doctor"] ["Doctor"]); reflexivity.
Defined.

(** X10.  The gates work on the request alone: neither [requireRole] nor
    [requireAuthenticated] calls [jwt.verify], changes the request or
    touches the key cache, the fetch count, the clock or the endpoint;
    they call [next()] at most once and, when they do, send nothing and
    write nothing to the console.  [requireAuthenticated] never writes to
    the console. *)
Theorem gates_are_local {host : Host} (s : Sys) (req : Request) (allowed : list string) :
  local_to_request s req (handle (requireRole allowed) s req)
  /\ local_to_request s req (handle requireAuthenticated s req)
  /\ st_sys (handle requireAuthenticated s req) = s.
Proof.
  unfold local_to_request. split; [|split].
  - destruct (user req) as [u|] eqn:U.
    + rewrite (requireRole_identity s req u allowed U).
      destruct (hasRole u allowed); repeat split;
        solve [right; repeat split | left; split; [reflexivity|discriminate]].
    + rewrite (requireRole_anonymous s req allowed U).
      repeat split. left. split; [reflexivity|discriminate].
  - rewrite requireAuthenticated_run.
    destruct (user req); repeat split;
      solve [right; repeat split | left; split; [reflexivity|discriminate]].
  - rewrite requireAuthenticated_run. destruct (user req); reflexivity.
Qed.

(** ** [getKey] and [jwtOptions] *)

(** X11.  [getKey] reads only the [kid] of the header it is given.  It
    hands on what [client.getSigningKey] answered: the error as it is, or
    the key's public key; it leaves the key cache and the fetch count as
    the client left them, and it writes one line to the error stream
    exactly when there is an error. *)
Theorem getKey_passes_on (env : ProcessEnv) (h : JwtHeader) (s : Sys) :
  (forall h', kid h' = kid h -> getKey env h' s = getKey env h s)
  /\ keyCache (snd (getKey env h s))
       = keyCache (snd (getSigningKey env (kid h) s))
  /\ fetches (snd (getKey env h s))
       = fetches (snd (getSigningKey env (kid h) s))
  /\ (forall e, fst (getSigningKey env (kid h) s) = inl e <->
                fst (getKey env h s) = inl e)
  /\ (forall k, fst (getSigningKey env (kid h) s) = inr k ->
                fst (getKey env h s) = inr (publicKey k)
                /\ console (snd (getKey env h s))
                   = console (snd (getSigningKey env (kid h) s)))
  /\ (forall e, fst (getKey env h s) = inl e ->
                console (snd (getKey env h s))
                = (console (snd (getSigningKey env (kid h) s))
                   ++ [(Stderr, [JStr "Error getting signing key:";
                                 JStr (message e)])])%list).
Proof.
  split.
  { intros h' E. unfold getKey. rewrite E. reflexivity. }
  unfold getKey.
  destruct (getSigningKey env (kid h) s) as [[e|k] s1]; cbn [fst snd];
    (split; [reflexivity|split; [reflexivity|split; [|split]]]).
  - intro e0. split; intro H; injection H as <-; reflexivity.
  - intros k H. discriminate H.
  - intros e0 H. injection H as <-. reflexivity.
  - intro e. split; discriminate.
  - intros k0 H. injection H as <-. split; reflexivity.
  - intros e H. discriminate H.
Qed.

(** X12.  The issuer [jwt.verify] is given is never empty: it is
    KEYCLOAK_ISSUER when that variable is set and not empty, and the
    default realm URL when it is unset or empty.  The algorithm list and
    the cache limits do not depend on the environment, and the key-set
    URL is never empty either. *)
Theorem options_from_environment (env : ProcessEnv) :
  issuer (jwtOptions env) <> ""
  /\ (forall v, KEYCLOAK_ISSUER env = Some v -> v <> "" ->
                issuer (jwtOptions env) = v)
  /\ (KEYCLOAK_ISSUER env = None \/ KEYCLOAK_ISSUER env = Some "" ->
      issuer (jwtOptions env)
      = "https://patientsystem-keycloak.app.cloud.cbh.kth.se/realms/patientsystem")
  /\ algorithms (jwtOptions env) = ["RS256"]
  /\ KeyResolver.jwksUri (KeyResolver.clientConfig env) <> ""
  /\ KeyResolver.cacheMaxEntries (KeyResolver.clientConfig env) = 5%nat
  /\ KeyResolver.cacheMaxAge (KeyResolver.clientConfig env) = 600000%Z.
Proof.
  unfold jwtOptions, KeyResolver.clientConfig.
  cbn [issuer algorithms KeyResolver.jwksUri KeyResolver.cacheMaxEntries
       KeyResolver.cacheMaxAge].
  repeat split.
  - destruct (KEYCLOAK_ISSUER env) as [[|c v]|]; discriminate.
  - intros v E N. rewrite E. destruct v; [congruence|reflexivity].
  - intros [E|E]; rewrite E; reflexivity.
  - destruct (KEYCLOAK_JWKS_URI env) as [[|c v]|]; discriminate.
Qed.

(** * Properties of server.js *)

(** ** The CORS origin check *)

Lemma filterBoolean_In (l : list (option string)) (x : string) :
  In x (filterBoolean l) <-> In (Some x) l /\ x <> "".
Proof.
  induction l as [|v l IH]; simpl; [tauto|].
  destruct v as [[|c y]|]; simpl.
  - rewrite IH. split.
    + intros [H N]. auto.
    + intros [[H|H] N]; [injection H as <-; congruence|auto].
  - rewrite IH. split.
    + intros [<-|[H N]]; [split; [auto|discriminate]|auto].
    + intros [[H|H] N]; [injection H as <-; auto|auto].
  - rewrite IH. split.
    + intros [H N]. auto.
    + intros [[H|H] N]; [discriminate|auto].
Qed.

(** X13.  The allowed origins are the three fixed ones and, when
    FRONTEND_URL is set and not empty, that URL; an unset or empty
    FRONTEND_URL adds nothing, and the empty string is never an allowed
    origin. *)
Theorem allowed_origins (env : ServerEnv) (o : string) :
  (In o (allowedOrigins env) <->
     o = "http://localhost:3000"
     \/ o = "http://localhost:30000"
     \/ o = "https://patientsystem-frontend.app.cloud.cbh.kth.se"
     \/ (FRONTEND_URL env = Some o /\ o <> ""))
  /\ ~ In "" (allowedOrigins env)
  /\ (3 <= length (allowedOrigins env) <= 4)%nat.
Proof.
  unfold allowedOrigins. split; [|split].
  - rewrite filterBoolean_In. simpl. split.
    + intros [[H|[H|[H|[H|[]]]]] N].
      * injection H as <-. auto.
      * injection H as <-. auto.
      * injection H as <-. auto.
      * auto.
    + intros [->|[->|[->|[H N]]]].
      * split; [auto|discriminate].
      * split; [auto|discriminate].
      * split; [auto 6|discriminate].
      * split; [auto 6|exact N].
  - rewrite filterBoolean_In. tauto.
  - simpl. destruct (FRONTEND_URL env) as [[|c y]|]; simpl; lia.
Qed.

Lemma corsOrigin_run (env : ServerEnv) (origin : option string) (s : Sys) :
  corsOrigin env origin s =
    match origin with
    | None => (inr true, s)
    | Some "" => (inr true, s)
    | Some o =>
        if Js.includes (allowedOrigins env) o then (inr true, s)
        else (inl (newError "Not allowed by CORS"),
              write_console Stdout [JStr "CORS blocked origin:"; JStr o] s)
    end.
Proof.
  unfold corsOrigin. destruct origin as [[|c o]|]; reflexivity.
Qed.

(** X14.  The origin check lets a request through exactly when it has no
    Origin header, an empty one, or one on the list of allowed origins,
    and then it changes nothing; every other origin gets the error
    "Not allowed by CORS", with no status, and one console line naming
    the origin.  The check never answers [false]. *)
Theorem cors_origin_decision (env : ServerEnv) (origin : option string)
    (s : Sys) :
  (corsOrigin env origin s = (inr true, s) <->
     origin = None \/ origin = Some ""
     \/ exists o, origin = Some o /\ In o (allowedOrigins env))
  /\ (forall o,
        origin = Some o -> o <> "" -> ~ In o (allowedOrigins env) ->
        corsOrigin env origin s
        = (inl {| se_message := Some "Not allowed by CORS"; se_status := None |},
           write_console Stdout [JStr "CORS blocked origin:"; JStr o] s))
  /\ fst (corsOrigin env origin s) <> inr false.
Proof.
  rewrite corsOrigin_run. split; [|split].
  - destruct origin as [[|c o]|].
    + split; auto.
    + destruct (Js.includes (allowedOrigins env) (String c o)) eqn:I.
      * apply includes_In in I. split; [|reflexivity].
        intros _. right. right. exists (String c o). auto.
      * split; [discriminate|].
        intros [H|[H|[o' [H In']]]]; try discriminate.
        injection H as <-. apply includes_In in In'. congruence.
    + split; auto.
  - intros o -> N Nin. destruct o as [|c o]; [congruence|].
    destruct (Js.includes (allowedOrigins env) (String c o)) eqn:I;
      [|reflexivity].
    apply includes_In in I. contradiction.
  - destruct origin as [[|c o]|]; try discriminate.
    destruct (Js.includes (allowedOrigins env) (String c o)); discriminate.
Qed.

Lemma cors_origin_decision_witness :
  corsOrigin serverEnv0 (Some "https://evil.example") TestDouble.sys0
  = (inl {| se_message := Some "Not allowed by CORS"; se_status := None |},
     write_console Stdout
       [JStr "CORS blocked origin:"; JStr "https://evil.example"]
       TestDouble.sys0).
Proof.
  apply (proj1 (proj2 (cors_origin_decision serverEnv0
                         (Some "https://evil.example") TestDouble.sys0))
           "https://evil.example").
  - reflexivity.
  - discriminate.
  - simpl. intros [H|[H|[H|[H|[]]]]]; discriminate H.
Defined.

(** ** The error handler *)

Lemma errorHandler_run (e : ServerError) (s : Sys) (req : Request) :
  handle (errorHandler e) s req =
    {| st_sys := write_console Stderr [JStr "Error:"; errorJson e] s;
       st_req := req;
       st_res :=
         if match se_message e with
            | Some m => String.eqb m "Not allowed by CORS"
            | None => false
            end
         then {| statusCode := 403; sent := Some CorsNotAllowed |}
         else {| statusCode := statusOr500 e;
                 sent := if validStatus (statusOr500 e)
                         then Some (JObj [("error",
                                JStr (Js.or_default (se_message e)
                                        "Internal server error"))])
                         else None |};
       st_next := 0;
       st_verify := [] |}.
Proof.
  unfold handle, errorHandler, bind, console_error, console_to, res_status,
    res_json.
  cbn [fst snd st_sys st_req st_res st_next st_verify statusCode sent].
  destruct (se_message e) as [m|].
  - destruct (String.eqb m "Not allowed by CORS"); cbn; [reflexivity|].
    destruct (validStatus (statusOr500 e)); reflexivity.
  - cbn. destruct (validStatus (statusOr500 e)); reflexivity.
Qed.




(** X16.  A request whose origin the CORS check refuses is answered
    403 "CORS not allowed" by the error handler; so is every error whose
    message is "Not allowed by CORS", whatever its [status]. *)
Theorem cors_refusal_is_403 (env : ServerEnv) (o : string) (s : Sys)
    (req : Request) :
  o <> "" -> ~ In o (allowedOrigins env) ->
  (exists err s1,
     corsOrigin env (Some o) s = (inl err, s1)
     /\ responded (handle (errorHandler err) s1 req) 403 CorsNotAllowed)
  /\ (forall status,
        responded
          (handle (errorHandler {| se_message := Some "Not allowed by CORS";
                                   se_status := status |}) s req)
          403 CorsNotAllowed).
Proof.
  intros N Nin. split.
  - exists (newError "Not allowed by CORS"),
      (write_console Stdout [JStr "CORS blocked origin:"; JStr o] s).
    split.
    + rewrite corsOrigin_run. destruct o as [|c o]; [congruence|].
      destruct (Js.includes (allowedOrigins env) (String c o)) eqn:I;
        [|reflexivity].
      apply includes_In in I. contradiction.
    + rewrite errorHandler_run. split; reflexivity.
  - intro status. rewrite errorHandler_run. split; reflexivity.
Qed.

Lemma cors_refusal_is_403_witness :
  (exists err s1,
     corsOrigin serverEnv0 (Some "http://localhost:3001") TestDouble.sys0
     = (inl err, s1)
     /\ responded (handle (errorHandler err) s1 (TestDouble.request None))
          403 CorsNotAllowed)
  /\ (forall status,
        responded
          (handle (errorHandler {| se_message := Some "Not allowed by CORS";
                                   se_status := status |})
             TestDouble.sys0 (TestDouble.request None))
          403 CorsNotAllowed).
Proof.
  apply (cors_refusal_is_403 serverEnv0 "http://localhost:3001"
           TestDouble.sys0 (TestDouble.request None)).
  - discriminate.
  - simpl. intros [H|[H|[H|[H|[]]]]]; discriminate H.
Defined.
